(** * messy-migrations: the user store, its validation schemas and its routes

    A shallow embedding of [app/models/user.py], [app/schemas/user.py],
    [app/routes/user.py] and [init_db.py].

    Modelling boundary.  The Python code is glue over four libraries; what the
    code observes of each of them is modelled as follows.
    - sqlite3: the [users] table is the list of its rows in rowid order
      together with the AUTOINCREMENT counter that SQLite keeps in
      [sqlite_sequence]; a statement either takes effect or raises and leaves
      the table as it was.  A Python [int] is a mathematical integer, a rowid
      a signed 64-bit one: binding an [int] outside that range raises
      [OverflowError], and AUTOINCREMENT refuses to issue an id past the
      largest one ([OperationalError], database or disk is full).  LIKE reads
      its operands as zero-terminated UTF-8 and refuses a pattern of more
      than 50000 bytes.  Faults of the environment (disk, locking, I/O) do
      not occur in the model.
    - flask-bcrypt over bcrypt 5: [generate_password_hash] refuses the empty
      password and a password of more than 72 bytes with [ValueError]; the
      digest of an accepted password, [bcrypt.hashpw], is a parameter of the
      development, with the salt that [bcrypt.gensalt] draws as an explicit
      argument; [check_password_hash] is a parameter.
    - marshmallow: [Schema.load] for string fields with [required] and
      [validate]; the syntax check of [fields.Email] is a parameter.
    - flask: [request.get_json()] returns the parsed body, a Python value, or
      raises werkzeug's [UnsupportedMediaType] or [BadRequest]; a handler
      returns a body and an [HTTPStatus], or lets an exception escape.
    A Python [str] is a [string] of code points below U+0100: a character is
    an [ascii], and takes one byte in UTF-8 below U+0080 and two from there. *)

From Stdlib Require Import ZArith String Ascii List Bool Lia Floats.PrimFloat.
From stdpp Require Import gmap strings list fin_maps pretty sorting.

Local Open Scope Z_scope.
Local Open Scope string_scope.

(** ** Python values as they come out of [request.get_json()] *)

#[warnings="-register-all"]
Inductive json : Type :=
| JNull
| JBool (b : bool)
| JInt (n : Z)
| JFloat (x : float)
| JStr (s : string)
| JList (l : list json)
| JObject (m : gmap string json).

(** Python truthiness: [not data] is [negb (truthy data)]. *)
Definition truthy (v : json) : bool :=
  match v with
  | JNull => false
  | JBool b => b
  | JInt n => negb (Z.eqb n 0)
  | JFloat x => negb (PrimFloat.eqb x 0%float)
  | JStr s => negb (String.eqb s "")
  | JList l => negb (Nat.eqb (List.length l) 0)
  | JObject m => negb (Nat.eqb (size m) 0)
  end.

(** ** Exceptions and the state of the database *)

(** marshmallow's [ValidationError]; [sqlite3.IntegrityError] and
    [sqlite3.OperationalError]; Python's [KeyError], [ValueError] and
    [OverflowError]; werkzeug's [UnsupportedMediaType] (415) and
    [BadRequest] (400). *)
Inductive exn : Type :=
| ValidationError (messages : gmap string (list string))
| IntegrityError
| OperationalError (msg : string)
| KeyError (key : string)
| ValueError (msg : string)
| OverflowError
| UnsupportedMediaType
| BadRequest.

(** [sqlite3.IntegrityError] and [sqlite3.OperationalError] are subclasses of
    [sqlite3.Error]; the other exceptions are not. *)
Definition is_sqlite3_Error (e : exn) : bool :=
  match e with
  | IntegrityError | OperationalError _ => true
  | _ => false
  end.

Inductive outcome (A : Type) : Type :=
| Return (a : A)
| Raise (e : exn).
Arguments Return {A} a.
Arguments Raise {A} e.

(** One row of
    [users(id INTEGER PRIMARY KEY AUTOINCREMENT, name TEXT NOT NULL,
           email TEXT NOT NULL UNIQUE, password TEXT NOT NULL)]. *)
Record Row : Type := mkRow {
  row_id : Z;
  row_name : string;
  row_email : string;
  row_password : string
}.

(** The table and the [sqlite_sequence] entry of [users]: the largest rowid
    the table has ever held. *)
Record DB : Type := mkDB {
  rows : list Row;
  seq : Z
}.

(** [DROP TABLE IF EXISTS users] followed by [CREATE TABLE]. *)
Definition empty_db : DB := mkDB [] 0.

(** Code that reads and writes the database and may raise. *)
Definition M (A : Type) : Type := DB -> DB * outcome A.

Definition ret {A} (a : A) : M A := fun db => (db, Return a).
Definition raise {A} (e : exn) : M A := fun db => (db, Raise e).
Definition bind {A B} (c : M A) (k : A -> M B) : M B :=
  fun db =>
    match c db with
    | (db', Return a) => k a db'
    | (db', Raise e) => (db', Raise e)
    end.
Definition lift {A} (o : outcome A) : M A := fun db => (db, o).

(** [try: c  except ...: h]: [h e = None] when no clause matches [e]. *)
Definition try_except {A} (c : M A) (h : exn -> option (M A)) : M A :=
  fun db =>
    match c db with
    | (db', Return a) => (db', Return a)
    | (db', Raise e) =>
        match h e with
        | Some handler => handler db'
        | None => (db', Raise e)
        end
    end.

Declare Scope py_scope.
Delimit Scope py_scope with py.
Notation "x <- c ;; k" := (bind c (fun x => k))
  (at level 100, c at next level, right associativity) : py_scope.

(** ** Integers and strings as SQLite sees them *)

Definition min_int64 : Z := -9223372036854775808.
Definition max_int64 : Z := 9223372036854775807.

(** A Python [int] that the sqlite3 module can bind as a parameter. *)
Definition fits_int64 (n : Z) : bool :=
  (Z.leb min_int64 n && Z.leb n max_int64)%bool.

(** The number of bytes of the string in UTF-8. *)
Fixpoint utf8_len (s : string) : Z :=
  match s with
  | EmptyString => 0
  | String c s' => (if Nat.ltb (nat_of_ascii c) 128 then 1 else 2) + utf8_len s'
  end.

Definition is_nul (c : ascii) : bool := Ascii.eqb c "000".

(** The string as C code reads it: up to its first NUL character. *)
Fixpoint c_str (s : string) : string :=
  match s with
  | EmptyString => EmptyString
  | String c s' => if is_nul c then EmptyString else String c (c_str s')
  end.

(** ** SQLite: LIKE *)

Definition SQLITE_MAX_LIKE_PATTERN_LENGTH : Z := 50000.

(** The case folding of LIKE: the 26 ASCII letters only. *)
Definition sqlite3Tolower (c : ascii) : ascii :=
  let n := nat_of_ascii c in
  if (Nat.leb 65 n && Nat.leb n 90)%bool then ascii_of_nat (n + 32) else c.

Definition nocase_eqb (c d : ascii) : bool :=
  Ascii.eqb (sqlite3Tolower c) (sqlite3Tolower d).

Definition is_percent (c : ascii) : bool := Ascii.eqb c "%".
Definition is_underscore (c : ascii) : bool := Ascii.eqb c "_".

(** [like pattern text] is the pattern comparison of [text LIKE pattern]
    with no ESCAPE clause, on strings without NUL: [%] matches any run of
    characters, [_] exactly one character, any other character itself up to
    ASCII case. *)
Fixpoint like (pattern : string) : string -> bool :=
  match pattern with
  | EmptyString =>
      fun text => match text with EmptyString => true | String _ _ => false end
  | String c pattern' =>
      if is_percent c then
        fix any_run (text : string) : bool :=
          like pattern' text
          || match text with
             | EmptyString => false
             | String _ text' => any_run text'
             end
      else if is_underscore c then
        fun text =>
          match text with
          | EmptyString => false
          | String _ text' => like pattern' text'
          end
      else
        fun text =>
          match text with
          | EmptyString => false
          | String d text' => nocase_eqb c d && like pattern' text'
          end
  end.

(** [text LIKE pattern] on one row, as SQLite's [likeFunc] evaluates it:
    the length of the whole pattern is checked first ([None]: LIKE or GLOB
    pattern too complex), then both operands are compared as C strings. *)
Definition likeFunc (pattern text : string) : option bool :=
  if Z.ltb SQLITE_MAX_LIKE_PATTERN_LENGTH (utf8_len pattern) then None
  else Some (like (c_str pattern) (c_str text)).

(** ** SQLite: the statements the model executes *)

Definition max_rowid (rs : list Row) : Z :=
  fold_right (fun r acc => Z.max (row_id r) acc) 0 rs.

(** The rowid that AUTOINCREMENT issues next: one more than the largest
    rowid the table holds or has ever held. *)
Definition next_rowid (db : DB) : Z :=
  Z.max (seq db) (max_rowid (rows db)) + 1.

(** [INSERT INTO users (name, email, password) VALUES (?, ?, ?)];
    returns [cursor.lastrowid].  The rowid is chosen before the UNIQUE
    constraint is checked, and none is left after the largest one. *)
Definition sql_insert (name email password : string) : M Z :=
  fun db =>
    if Z.ltb max_int64 (next_rowid db)
    then (db, Raise (OperationalError "database or disk is full"))
    else if existsb (fun r => String.eqb (row_email r) email) (rows db)
    then (db, Raise IntegrityError)
    else
      let rowid := next_rowid db in
      (mkDB (rows db ++ [mkRow rowid name email password]) rowid, Return rowid).

(** The rows of [... WHERE name LIKE ?]: LIKE is evaluated row by row, and
    an error on a row ends the statement. *)
Fixpoint select_where_name_like (pattern : string) (rs : list Row)
  : option (list Row) :=
  match rs with
  | [] => Some []
  | r :: rs' =>
      match likeFunc pattern (row_name r) with
      | None => None
      | Some matched =>
          match select_where_name_like pattern rs' with
          | None => None
          | Some hits => Some (if matched then r :: hits else hits)
          end
      end
  end.

(** [UPDATE users SET name = ?, email = ? WHERE id = ?];
    returns [cursor.rowcount]. *)
Definition sql_update (name email : string) (user_id : Z) : M Z :=
  fun db =>
    if negb (fits_int64 user_id) then (db, Raise OverflowError)
    else
      let hit r := Z.eqb (row_id r) user_id in
      let n := List.length (List.filter hit (rows db)) in
      if (Nat.ltb 0 n
          && existsb (fun r => negb (hit r) && String.eqb (row_email r) email)
               (rows db))%bool
      then (db, Raise IntegrityError)
      else
        (mkDB (map (fun r => if hit r
                             then mkRow (row_id r) name email (row_password r)
                             else r) (rows db))
              (seq db),
         Return (Z.of_nat n)).

(** [DELETE FROM users WHERE id = ?]; returns [cursor.rowcount]. *)
Definition sql_delete (user_id : Z) : M Z :=
  fun db =>
    if negb (fits_int64 user_id) then (db, Raise OverflowError)
    else
      let hit r := Z.eqb (row_id r) user_id in
      (mkDB (List.filter (fun r => negb (hit r)) (rows db)) (seq db),
       Return (Z.of_nat (List.length (List.filter hit (rows db))))).

(** [dict(row)] for a row of [SELECT id, name, email ...]. *)
Definition dict_id_name_email (r : Row) : gmap string json :=
  {[ "id" := JInt (row_id r); "name" := JStr (row_name r);
     "email" := JStr (row_email r) ]}.

(** [dict(row)] for a row of [SELECT * ...]. *)
Definition dict_star (r : Row) : gmap string json :=
  {[ "id" := JInt (row_id r); "name" := JStr (row_name r);
     "email" := JStr (row_email r); "password" := JStr (row_password r) ]}.

(** ** HTTP responses *)

Inductive HTTPStatus : Type :=
| OK | CREATED | BAD_REQUEST | UNAUTHORIZED | NOT_FOUND | CONFLICT
| INTERNAL_SERVER_ERROR.

Definition status_code (s : HTTPStatus) : Z :=
  match s with
  | OK => 200
  | CREATED => 201
  | BAD_REQUEST => 400
  | UNAUTHORIZED => 401
  | NOT_FOUND => 404
  | CONFLICT => 409
  | INTERNAL_SERVER_ERROR => 500
  end.

(** What a handler returns: [(jsonify(body), status)]. *)
Definition response : Type := json * HTTPStatus.

(** ** An instance of the library parameters

    Not bcrypt and not marshmallow's email syntax: small functions of the
    right types, at which the model is run on concrete inputs. *)

Definition demo_hashpw (password : string) (s : unit) : string :=
  "plain$" +:+ password.

Definition demo_check_password_hash (pw_hash password : string) : bool :=
  String.eqb pw_hash ("plain$" +:+ password).

Fixpoint demo_valid_email (value : string) : bool :=
  match value with
  | EmptyString => false
  | String c value' => Ascii.eqb c "@" || demo_valid_email value'
  end.

Section App.

(** bcrypt.  [salt] is what [bcrypt.gensalt] draws at random, and
    [hashpw password s] the digest [bcrypt.hashpw] computes with it, as text. *)
Variable salt : Type.
Variable hashpw : string -> salt -> string.
Variable check_password_hash : string -> string -> bool.

(** marshmallow's [validate.Email]: [true] when the string passes. *)
Variable valid_email : string -> bool.

(** ** flask-bcrypt: [Bcrypt.generate_password_hash] *)

(** The passwords that are hashed: not empty, and at most 72 bytes. *)
Definition bcrypt_accepts (password : string) : bool :=
  (negb (String.eqb password "") && Z.leb (utf8_len password) 72)%bool.

(** [if not password: raise ValueError], then [bcrypt.hashpw] on the encoded
    password with a fresh salt, which raises on more than 72 bytes. *)
Definition generate_password_hash (s : salt) (password : string)
  : outcome string :=
  if String.eqb password "" then Raise (ValueError "Password must be non-empty.")
  else if Z.ltb 72 (utf8_len password)
  then Raise (ValueError "password cannot be longer than 72 bytes, truncate manually if necessary (e.g. my_password[:72])")
  else Return (hashpw password s).

(** ** marshmallow: fields, validators, [Schema.load] *)

Inductive validator : Type :=
| Length (min : nat)
| Email.

(** A string field that takes part in loading; [error_invalid] is the
    message of its class for a value that is not a string. *)
Record field : Type := mkField {
  attr : string;
  required : bool;
  validate : list validator;
  error_invalid : string
}.

Definition fields_Str (attr : string) (required : bool) (validate : list validator)
  : field := mkField attr required validate "Not a valid string.".

(** [fields.Email] is a string field whose first validator is
    [validate.Email], and whose message for a value that is not a string is
    that of the validator. *)
Definition fields_Email (attr : string) (required : bool) : field :=
  mkField attr required [Email] "Not a valid email address.".

(** The messages a validator raises on [value]; none when it passes. *)
Definition run_validator (v : validator) (value : string) : list string :=
  match v with
  | Length min =>
      if Nat.ltb (String.length value) min
      then ["Shorter than minimum length " +:+ pretty min +:+ "."]
      else []
  | Email =>
      if valid_email value then [] else ["Not a valid email address."]
  end.

(** [Field.deserialize] on [data.get(field_name, missing)]: the messages of
    the [ValidationError] it raises, or the value ([None]: nothing to set).
    Every validator runs and the messages add up. *)
Definition deserialize (f : field) (raw : option json)
  : list string + option string :=
  match raw with
  | None =>
      if required f then inl ["Missing data for required field."] else inr None
  | Some JNull => inl ["Field may not be null."]
  | Some (JStr value) =>
      match flat_map (fun v => run_validator v value) (validate f) with
      | [] => inr (Some value)
      | errors => inl errors
      end
  | Some _ => inl [error_invalid f]
  end.

(** [ErrorStore.store_error]. *)
Definition store_error (errors : gmap string (list string)) (key : string)
    (messages : list string) : gmap string (list string) :=
  <[key := (default [] (errors !! key) ++ messages)%list]> errors.

(** The loop of [Schema._deserialize] over the load fields. *)
Fixpoint deserialize_fields (fs : list field) (data : gmap string json)
    (errors : gmap string (list string)) (ret_d : gmap string string)
  : gmap string (list string) * gmap string string :=
  match fs with
  | [] => (errors, ret_d)
  | f :: fs' =>
      match deserialize f (data !! attr f) with
      | inl messages =>
          deserialize_fields fs' data (store_error errors (attr f) messages) ret_d
      | inr (Some value) =>
          deserialize_fields fs' data errors (<[attr f := value]> ret_d)
      | inr None => deserialize_fields fs' data errors ret_d
      end
  end.

(** [Schema.load] with the default [unknown=RAISE]: the fields, then
    [for key in set(data) - fields], then [if errors: raise]. *)
Definition load (schema : list field) (data : json) : outcome (gmap string string) :=
  match data with
  | JObject m =>
      let '(errors, ret_d) := deserialize_fields schema m ∅ ∅ in
      let unknown : gset string := dom m ∖ list_to_set (attr <$> schema) in
      let errors :=
        set_fold (fun key errs => store_error errs key ["Unknown field."])
          errors unknown in
      if Nat.eqb (size errors) 0 then Return ret_d
      else Raise (ValidationError errors)
  | _ => Raise (ValidationError {[ "_schema" := ["Invalid input type."] ]})
  end.

(** ** [app/schemas/user.py]

    [id = fields.Int(dump_only=True)] is not a load field of [UserSchema]:
    an [id] key in the input is an unknown field. *)

Definition UserSchema : list field :=
  [ fields_Str "name" true [Length 1];
    fields_Email "email" true;
    fields_Str "password" true [Length 6] ].

Definition UserUpdateSchema : list field :=
  [ fields_Str "name" true [Length 1];
    fields_Email "email" true ].

Definition LoginSchema : list field :=
  [ fields_Email "email" true;
    fields_Str "password" true [] ].

(** ** [app/models/user.py]: UserModel *)

(** [SELECT id, name, email FROM users]. *)
Definition get_all_users : M (list (gmap string json)) :=
  fun db => (db, Return (map dict_id_name_email (rows db))).

(** [SELECT id, name, email FROM users WHERE id = ?], [fetchone()]. *)
Definition get_user_by_id (user_id : Z) : M (option (gmap string json)) :=
  fun db =>
    if negb (fits_int64 user_id) then (db, Raise OverflowError)
    else
      let user := find (fun r => Z.eqb (row_id r) user_id) (rows db) in
      (db, Return (option_map dict_id_name_email user)).

Definition create_user (s : salt) (name email password : string) : M Z :=
  (hashed_password <- lift (generate_password_hash s password) ;;
   lastrowid <- sql_insert name email hashed_password ;;
   ret lastrowid)%py.

Definition update_user (user_id : Z) (name email : string) : M bool :=
  (rowcount <- sql_update name email user_id ;;
   ret (Z.ltb 0 rowcount))%py.

Definition delete_user (user_id : Z) : M bool :=
  (rowcount <- sql_delete user_id ;;
   ret (Z.ltb 0 rowcount))%py.

(** [SELECT id, name, email FROM users WHERE name LIKE ?] with the
    parameter [f"%{name}%"], [fetchall()]. *)
Definition search_users (name : string) : M (list (gmap string json)) :=
  fun db =>
    match select_where_name_like ("%" +:+ name +:+ "%") (rows db) with
    | Some hits => (db, Return (map dict_id_name_email hits))
    | None =>
        (db, Raise (OperationalError "LIKE or GLOB pattern too complex"))
    end.

(** [SELECT * FROM users WHERE email = ?], [fetchone()], then the check of
    the password against the stored hash. *)
Definition verify_login (email password : string) : M (option (gmap string json)) :=
  fun db =>
    let user := find (fun r => String.eqb (row_email r) email) (rows db) in
    match user with
    | Some r =>
        if check_password_hash (row_password r) password
        then (db, Return (Some (dict_star r)))
        else (db, Return None)
    | None => (db, Return None)
    end.

(** ** [init_db.py] *)

Definition hash_password (s : salt) (password : string) : outcome string :=
  generate_password_hash s password.

Definition sample_users (s1 s2 s3 : salt)
  : M (list (string * string * string)) :=
  (h1 <- lift (hash_password s1 "password123") ;;
   h2 <- lift (hash_password s2 "secret456") ;;
   h3 <- lift (hash_password s3 "qwerty789") ;;
   ret [ ("John Doe", "john@example.com", h1);
         ("Jane Smith", "jane@example.com", h2);
         ("Bob Johnson", "bob@example.com", h3) ])%py.

(** [cursor.executemany("INSERT ...", sample_users)]. *)
Fixpoint executemany_insert (us : list (string * string * string)) : M unit :=
  match us with
  | [] => ret tt
  | (name, email, password) :: us' =>
      (_ <- sql_insert name email password ;; executemany_insert us')%py
  end.

(** The script, on the table it has just dropped and created. *)
Definition init_db_script (s1 s2 s3 : salt) : M unit :=
  (users <- sample_users s1 s2 s3 ;; executemany_insert users)%py.

(** The table the script leaves. *)
Definition init_db (s1 s2 s3 : salt) : DB :=
  fst (init_db_script s1 s2 s3 empty_db).


(** ** [app/routes/user.py] *)

(** What [request.get_json()] finds: a body that parses to a Python value;
    a request whose Content-Type is not JSON, as one without a body has;
    or a body that does not parse, as the empty one. *)
Inductive request_body : Type :=
| json_body (data : json)
| not_json
| malformed_json.

Definition get_json (body : request_body) : M json :=
  match body with
  | json_body data => ret data
  | not_json => raise UnsupportedMediaType
  | malformed_json => raise BadRequest
  end.

(** [validated_data[key]]. *)
Definition getitem (d : gmap string string) (key : string) : M string :=
  match d !! key with
  | Some v => ret v
  | None => raise (KeyError key)
  end.

Definition jsonify_messages (messages : gmap string (list string)) : json :=
  JObject ((fun l => JList (JStr <$> l)) <$> messages).

Definition error_body (msg : string) : json := JObject {[ "error" := JStr msg ]}.

Definition validation_error_response (messages : gmap string (list string))
  : response :=
  (JObject {[ "error" := JStr "Validation error";
              "messages" := jsonify_messages messages ]}, BAD_REQUEST).

Definition no_input_response : response :=
  (error_body "No input data provided", BAD_REQUEST).

Definition database_error_response : response :=
  (error_body "Database error", INTERNAL_SERVER_ERROR).

(** [except (ValueError, KeyError) as e] with the body [str(e)], then
    [except sqlite3.Error]. *)
Definition except_ValueError_KeyError_Error (e : exn) : option (M response) :=
  match e with
  | ValueError msg => Some (ret (error_body msg, BAD_REQUEST))
  | KeyError key => Some (ret (error_body ("'" +:+ key +:+ "'"), BAD_REQUEST))
  | IntegrityError | OperationalError _ => Some (ret database_error_response)
  | ValidationError _ | OverflowError | UnsupportedMediaType | BadRequest => None
  end.

(** [GET /users]. *)
Definition route_get_all_users : M response :=
  try_except
    (users <- get_all_users ;;
     ret (JList (JObject <$> users), OK))%py
    except_ValueError_KeyError_Error.

(** [GET /user/<int:user_id>]. *)
Definition route_get_user (user_id : Z) : M response :=
  try_except
    (user <- get_user_by_id user_id ;;
     match user with
     | Some u => ret (JObject u, OK)
     | None => ret (error_body "User not found", NOT_FOUND)
     end)%py
    except_ValueError_KeyError_Error.

(** [POST /users]. *)
Definition route_create_user (s : salt) (body : request_body) : M response :=
  try_except
    (data <- get_json body ;;
     if negb (truthy data) then ret no_input_response
     else
       validated_data <- lift (load UserSchema data) ;;
       name <- getitem validated_data "name" ;;
       email <- getitem validated_data "email" ;;
       password <- getitem validated_data "password" ;;
       user_id <- create_user s name email password ;;
       ret (JObject {[ "message" := JStr "User created successfully";
                       "user_id" := JInt user_id ]}, CREATED))%py
    (fun e =>
       match e with
       | ValidationError messages => Some (ret (validation_error_response messages))
       | IntegrityError =>
           Some (ret (error_body "User with this email already exists", CONFLICT))
       | OperationalError _ => Some (ret database_error_response)
       | KeyError _ | ValueError _ | OverflowError
       | UnsupportedMediaType | BadRequest => None
       end).

(** [PUT /user/<int:user_id>]. *)
Definition route_update_user (user_id : Z) (body : request_body) : M response :=
  try_except
    (data <- get_json body ;;
     if negb (truthy data) then ret no_input_response
     else
       validated_data <- lift (load UserUpdateSchema data) ;;
       name <- getitem validated_data "name" ;;
       email <- getitem validated_data "email" ;;
       success <- update_user user_id name email ;;
       if (success : bool)
       then ret (JObject {[ "message" := JStr "User updated successfully" ]}, OK)
       else ret (error_body "User not found", NOT_FOUND))%py
    (fun e =>
       match e with
       | ValidationError messages => Some (ret (validation_error_response messages))
       | IntegrityError => Some (ret (error_body "Email already in use", CONFLICT))
       | OperationalError _ => Some (ret database_error_response)
       | KeyError _ | ValueError _ | OverflowError
       | UnsupportedMediaType | BadRequest => None
       end).

(** [DELETE /user/<int:user_id>]. *)
Definition route_delete_user (user_id : Z) : M response :=
  try_except
    (success <- delete_user user_id ;;
     if (success : bool)
     then ret (JObject {[ "message" := JStr "User deleted successfully" ]}, OK)
     else ret (error_body "User not found", NOT_FOUND))%py
    (fun e =>
       if is_sqlite3_Error e then Some (ret database_error_response) else None).

(** [GET /search]; [name] is [request.args.get('name')]. *)
Definition route_search_users (name : option string) : M response :=
  try_except
    (match name with
     | None | Some "" =>
         ret (error_body "Please provide a name to search", BAD_REQUEST)
     | Some name =>
         users <- search_users name ;;
         ret (JList (JObject <$> users), OK)
     end)%py
    (fun e =>
       if is_sqlite3_Error e then Some (ret database_error_response) else None).

Definition invalid_credentials_response : response :=
  (JObject {[ "status" := JStr "failed"; "error" := JStr "Invalid credentials" ]},
   UNAUTHORIZED).

(** [user['id']] on the [dict] that [verify_login] returns. *)
Definition getitem_json (d : gmap string json) (key : string) : M json :=
  match d !! key with
  | Some v => ret v
  | None => raise (KeyError key)
  end.

(** [POST /login]. *)
Definition route_login (body : request_body) : M response :=
  try_except
    (data <- get_json body ;;
     if negb (truthy data) then ret no_input_response
     else
       validated_data <- lift (load LoginSchema data) ;;
       email <- getitem validated_data "email" ;;
       password <- getitem validated_data "password" ;;
       user <- verify_login email password ;;
       match user with
       | Some u =>
           user_id <- getitem_json u "id" ;;
           ret (JObject {[ "status" := JStr "success"; "user_id" := user_id;
                           "message" := JStr "Login successful" ]}, OK)
       | None => ret invalid_credentials_response
       end)%py
    (fun e =>
       match e with
       | ValidationError messages => Some (ret (validation_error_response messages))
       | IntegrityError | OperationalError _ => Some (ret database_error_response)
       | KeyError _ | ValueError _ | OverflowError
       | UnsupportedMediaType | BadRequest => None
       end).

(** Names for three of the responses built in the handlers above. *)

Definition login_success_response (user_id : Z) : response :=
  (JObject {[ "status" := JStr "success"; "user_id" := JInt user_id;
              "message" := JStr "Login successful" ]}, OK).



(** ** Request bodies and what makes a field offending *)



Definition login_body (email password : string) : json :=
  JObject {[ "email" := JStr email; "password" := JStr password ]}.

(** The constraint a validator stands for. *)
Definition passes (v : validator) (value : string) : bool :=
  match v with
  | Length min => Nat.leb min (String.length value)
  | Email => valid_email value
  end.

(** The field is offending in the body [m]: required and missing, of the
    wrong type, or a string that fails one of its constraints. *)
Definition offending (f : field) (m : gmap string json) : Prop :=
  match m !! attr f with
  | None => required f = true
  | Some (JStr value) => exists v, v ∈ validate f /\ passes v value = false
  | Some _ => True
  end.

(** A handler answered with the validation error that lists every offending
    field of [schema], and left the table as it was. *)
Definition rejected_listing (schema : list field) (m : gmap string json)
    (db : DB) (result : DB * outcome response) : Prop :=
  exists messages,
    result = (db, Return (validation_error_response messages)) /\
    (forall f, f ∈ schema -> offending f m -> is_Some (messages !! attr f)).

(** ** What the search is documented to compute

    "users whose names contain the given substring (case-insensitive)":
    [s] occurs in [t] when [t] is [pre ++ mid ++ post] with [mid] equal to
    [s] up to the case of ASCII letters. *)

Fixpoint nocase_equal (s mid : string) : bool :=
  match s, mid with
  | EmptyString, EmptyString => true
  | String c s', String d mid' => nocase_eqb c d && nocase_equal s' mid'
  | _, _ => false
  end.

Definition occurs_nocase (s t : string) : Prop :=
  exists pre mid post, t = pre +:+ mid +:+ post /\ nocase_equal s mid = true.

Fixpoint nocase_prefix (s t : string) : bool :=
  match s, t with
  | EmptyString, _ => true
  | String c s', String d t' => nocase_eqb c d && nocase_prefix s' t'
  | String _ _, EmptyString => false
  end.

Fixpoint contains_nocase (s t : string) : bool :=
  nocase_prefix s t
  || match t with
     | EmptyString => false
     | String _ t' => contains_nocase s t'
     end.

(** No [%] and no [_] in the string. *)
Fixpoint wildcard_free (s : string) : bool :=
  match s with
  | EmptyString => true
  | String c s' => negb (is_percent c) && negb (is_underscore c) && wildcard_free s'
  end.

(** No NUL character in the string. *)
Fixpoint nul_free (s : string) : bool :=
  match s with
  | EmptyString => true
  | String c s' => negb (is_nul c) && nul_free s'
  end.

(** The string with its ASCII capitals turned into small letters. *)
Fixpoint lower (s : string) : string :=
  match s with
  | EmptyString => EmptyString
  | String c s' => String (sqlite3Tolower c) (lower s')
  end.

(** ** Records without the password, tables with other passwords *)

(** The record has exactly the keys id, name and email. *)
Definition only_id_name_email (d : gmap string json) : Prop :=
  dom d = ({[ "id"; "name"; "email" ]} : gset string) /\
  d !! "password" = None /\ d !! "password_hash" = None.

(** The same table with every stored password hash rewritten. *)
Definition with_passwords (f : Row -> string) (db : DB) : DB :=
  mkDB (map (fun r => mkRow (row_id r) (row_name r) (row_email r) (f r)) (rows db))
       (seq db).

(** ** Histories of store calls *)

Inductive op : Type :=
| Create (s : salt) (name email password : string)
| Update (user_id : Z) (name email : string)
| Delete (user_id : Z).

(** One call; the second component lists the id it issued, if any. *)
Definition step (o : op) (db : DB) : DB * list Z :=
  match o with
  | Create s name email password =>
      match create_user s name email password db with
      | (db', Return user_id) => (db', [user_id])
      | (db', Raise _) => (db', [])
      end
  | Update user_id name email => (fst (update_user user_id name email db), [])
  | Delete user_id => (fst (delete_user user_id db), [])
  end.

Fixpoint run (ops : list op) (db : DB) : DB * list Z :=
  match ops with
  | [] => (db, [])
  | o :: ops' =>
      let '(db1, issued1) := step o db in
      let '(db2, issued2) := run ops' db1 in
      (db2, (issued1 ++ issued2)%list)
  end.

(** ** The invariant of the table *)

(** PRIMARY KEY, UNIQUE(email), and [sqlite_sequence] bounds every rowid. *)
Definition wf_db (db : DB) : Prop :=
  NoDup (row_id <$> rows db) /\
  NoDup (row_email <$> rows db) /\
  Forall (fun r => row_id r <= seq db) (rows db).

(** The rowids of the table are 64-bit integers: AUTOINCREMENT issues none
    past the largest, and no statement of the store sets one. *)
Definition rowids_fit (db : DB) : Prop :=
  Forall (fun r => fits_int64 (row_id r) = true) (rows db).

(** ** Facts about the statements *)

Lemma max_rowid_ge (rs : list Row) (r : Row) :
  r ∈ rs -> row_id r <= max_rowid rs.
Proof.
  induction rs as [|x rs IH]; intros Hin.
  - inversion Hin.
  - simpl. inversion Hin; subst; [lia|]. specialize (IH ltac:(assumption)). lia.
Qed.

Lemma existsb_false_iff {A} (f : A -> bool) (l : list A) :
  existsb f l = false <-> forall x, x ∈ l -> f x = false.
Proof.
  split.
  - intros H x Hx. destruct (f x) eqn:E; [|reflexivity].
    rewrite <- H. symmetry. apply existsb_exists. exists x.
    split; [by apply list_elem_of_In|done].
  - intros H. destruct (existsb f l) eqn:E; [|reflexivity].
    apply existsb_exists in E as (x & Hx & Hfx).
    apply list_elem_of_In in Hx. rewrite (H x Hx) in Hfx. discriminate.
Qed.




Lemma find_none_iff {A} (f : A -> bool) (l : list A) :
  find f l = None <-> forall y, y ∈ l -> f y = false.
Proof.
  split.
  - intros H y Hy. apply (find_none f l H). by apply list_elem_of_In.
  - induction l as [|x l IH]; intros H; simpl; [reflexivity|].
    rewrite (H x) by constructor. apply IH. intros y Hy. apply H. by constructor.
Qed.

Lemma fits_int64_spec (n : Z) :
  fits_int64 n = true <-> min_int64 <= n <= max_int64.
Proof. unfold fits_int64. rewrite andb_true_iff, !Z.leb_le. tauto. Qed.

Lemma max_rowid_nonneg (rs : list Row) : 0 <= max_rowid rs.
Proof. induction rs as [|r rs IH]; simpl; lia. Qed.

Lemma next_rowid_above (db : DB) :
  seq db < next_rowid db /\ 0 < next_rowid db /\
  forall r, r ∈ rows db -> row_id r < next_rowid db.
Proof.
  unfold next_rowid. pose proof (max_rowid_nonneg (rows db)).
  split; [lia|]. split; [lia|].
  intros r Hr. pose proof (max_rowid_ge _ _ Hr). lia.
Qed.

Lemma next_rowid_fits (db : DB) :
  next_rowid db <= max_int64 -> fits_int64 (next_rowid db) = true.
Proof.
  intros H. apply fits_int64_spec. destruct (next_rowid_above db) as (_ & H0 & _).
  unfold min_int64. lia.
Qed.



(** No rowid is left: the INSERT fails before it looks at the email. *)
Lemma sql_insert_full (name email password : string) (db : DB) :
  max_int64 < next_rowid db ->
  sql_insert name email password db =
    (db, Raise (OperationalError "database or disk is full")).
Proof.
  intros Hfull. unfold sql_insert.
  destruct (Z.ltb_spec max_int64 (next_rowid db)); [reflexivity|lia].
Qed.

(** What an INSERT leaves and returns, case by case. *)
Lemma sql_insert_cases (name email password : string) (db : DB) :
  sql_insert name email password db =
    (db, Raise (OperationalError "database or disk is full")) \/
  sql_insert name email password db = (db, Raise IntegrityError) \/
  (next_rowid db <= max_int64 /\
   sql_insert name email password db =
     (mkDB (rows db ++ [mkRow (next_rowid db) name email password])
        (next_rowid db),
      Return (next_rowid db))).
Proof.
  unfold sql_insert.
  destruct (Z.ltb_spec max_int64 (next_rowid db)); [by left|].
  destruct (existsb _ (rows db)); [by right; left|by right; right].
Qed.

(** ** Facts about the hasher and [create_user] *)

Lemma generate_password_hash_accepts (s : salt) (password : string) :
  bcrypt_accepts password = true ->
  generate_password_hash s password = Return (hashpw password s).
Proof.
  unfold bcrypt_accepts, generate_password_hash. intros H.
  apply andb_true_iff in H as [H1 H2]. apply negb_true_iff in H1. rewrite H1.
  apply Z.leb_le in H2.
  destruct (Z.ltb_spec 72 (utf8_len password)); [lia|reflexivity].
Qed.

Lemma generate_password_hash_refuses (s : salt) (password : string) :
  bcrypt_accepts password = false ->
  exists msg, generate_password_hash s password = Raise (ValueError msg).
Proof.
  unfold bcrypt_accepts, generate_password_hash. intros H.
  destruct (String.eqb password ""); [eauto|]. simpl in H.
  apply Z.leb_gt in H.
  destruct (Z.ltb_spec 72 (utf8_len password)); [eauto|lia].
Qed.

Lemma generate_password_hash_cases (s : salt) (password : string) :
  (bcrypt_accepts password = true /\
   generate_password_hash s password = Return (hashpw password s)) \/
  (bcrypt_accepts password = false /\
   exists msg, generate_password_hash s password = Raise (ValueError msg)).
Proof.
  destruct (bcrypt_accepts password) eqn:E.
  - left. split; [reflexivity|]. by apply generate_password_hash_accepts.
  - right. split; [reflexivity|]. by apply generate_password_hash_refuses.
Qed.

(** The password is hashed before the INSERT is attempted. *)
Lemma create_user_eq (s : salt) (name email password : string) (db : DB) :
  create_user s name email password db =
    match generate_password_hash s password with
    | Return hashed_password => sql_insert name email hashed_password db
    | Raise e => (db, Raise e)
    end.
Proof.
  unfold create_user, bind, lift, ret.
  destruct (generate_password_hash s password) as [h|e]; [|reflexivity].
  by destruct (sql_insert name email h db) as [db' [i|e]].
Qed.

Lemma create_user_accepted (s : salt) (name email password : string) (db : DB) :
  bcrypt_accepts password = true ->
  create_user s name email password db =
    sql_insert name email (hashpw password s) db.
Proof.
  intros H. by rewrite create_user_eq, generate_password_hash_accepts.
Qed.

Lemma create_user_refused (s : salt) (name email password : string) (db : DB) :
  bcrypt_accepts password = false ->
  exists msg, create_user s name email password db = (db, Raise (ValueError msg)).
Proof.
  intros H. destruct (generate_password_hash_refuses s password H) as [msg Hmsg].
  exists msg. by rewrite create_user_eq, Hmsg.
Qed.

(** What [create_user] returns and leaves, case by case. *)
Lemma create_user_cases (s : salt) (name email password : string) (db : DB) :
  (bcrypt_accepts password = false /\
   exists msg, create_user s name email password db = (db, Raise (ValueError msg))) \/
  (bcrypt_accepts password = true /\ max_int64 < next_rowid db /\
   create_user s name email password db =
     (db, Raise (OperationalError "database or disk is full"))) \/
  (bcrypt_accepts password = true /\
   create_user s name email password db = (db, Raise IntegrityError)) \/
  (bcrypt_accepts password = true /\ next_rowid db <= max_int64 /\
   create_user s name email password db =
     (mkDB (rows db ++ [mkRow (next_rowid db) name email (hashpw password s)])
        (next_rowid db),
      Return (next_rowid db))).
Proof.
  destruct (bcrypt_accepts password) eqn:Haccepts.
  - right. rewrite create_user_accepted by assumption. unfold sql_insert.
    destruct (Z.ltb_spec max_int64 (next_rowid db)); [by left|right].
    destruct (existsb _ (rows db)); [by left|by right].
  - left. split; [reflexivity|]. by apply create_user_refused.
Qed.


Lemma map_no_hit (rs : list Row) (user_id : Z) (g : Row -> Row) :
  (forall r, r ∈ rs -> row_id r <> user_id) ->
  map (fun r => if Z.eqb (row_id r) user_id then g r else r) rs = rs.
Proof.
  induction rs as [|x rs IH]; intros H; simpl; [reflexivity|].
  destruct (Z.eqb_spec (row_id x) user_id) as [E|_].
  - exfalso. apply (H x); [constructor|exact E].
  - f_equal. apply IH. intros r Hr. apply H. by constructor.
Qed.

Lemma filter_hit_length (rs : list Row) (user_id : Z) :
  Nat.ltb 0 (List.length (List.filter (fun r => Z.eqb (row_id r) user_id) rs))
  = existsb (fun r => Z.eqb (row_id r) user_id) rs.
Proof.
  induction rs as [|x rs IH]; simpl; [reflexivity|].
  destruct (Z.eqb (row_id x) user_id); simpl; [reflexivity|exact IH].
Qed.

(** What [update_user] returns and leaves. *)
Lemma update_user_result (user_id : Z) (name email : string) (db : DB) :
  update_user user_id name email db =
    if negb (fits_int64 user_id) then (db, Raise OverflowError)
    else if (existsb (fun r => Z.eqb (row_id r) user_id) (rows db)
             && existsb (fun r => negb (Z.eqb (row_id r) user_id)
                                  && String.eqb (row_email r) email) (rows db))%bool
    then (db, Raise IntegrityError)
    else (mkDB (map (fun r => if Z.eqb (row_id r) user_id
                              then mkRow (row_id r) name email (row_password r)
                              else r) (rows db)) (seq db),
          Return (existsb (fun r => Z.eqb (row_id r) user_id) (rows db))).
Proof.
  unfold update_user, bind, ret, sql_update.
  destruct (negb (fits_int64 user_id)); [reflexivity|].
  rewrite <- filter_hit_length.
  destruct (_ && _)%bool; [reflexivity|]. do 2 f_equal.
  destruct (List.filter _ (rows db)); reflexivity.
Qed.

(** What [delete_user] returns and leaves. *)
Lemma delete_user_result (user_id : Z) (db : DB) :
  delete_user user_id db =
    if negb (fits_int64 user_id) then (db, Raise OverflowError)
    else
      (mkDB (List.filter (fun r => negb (Z.eqb (row_id r) user_id)) (rows db))
         (seq db),
       Return (existsb (fun r => Z.eqb (row_id r) user_id) (rows db))).
Proof.
  unfold delete_user, bind, ret, sql_delete.
  destruct (negb (fits_int64 user_id)); [reflexivity|]. do 2 f_equal.
  rewrite <- filter_hit_length.
  destruct (List.filter _ (rows db)); reflexivity.
Qed.

(** The table after [update_user], whether it returned or raised. *)
Lemma update_user_rows (user_id : Z) (name email : string) (db : DB) :
  fst (update_user user_id name email db) = db \/
  fst (update_user user_id name email db) =
    mkDB (map (fun r => if Z.eqb (row_id r) user_id
                        then mkRow (row_id r) name email (row_password r)
                        else r) (rows db)) (seq db).
Proof.
  rewrite update_user_result.
  destruct (negb (fits_int64 user_id)); [by left|].
  destruct (_ && _)%bool; simpl; [left|right]; reflexivity.
Qed.

(** The table after [delete_user], whether it returned or raised. *)
Lemma delete_user_rows (user_id : Z) (db : DB) :
  fst (delete_user user_id db) = db \/
  fst (delete_user user_id db) =
    mkDB (List.filter (fun r => negb (Z.eqb (row_id r) user_id)) (rows db))
      (seq db).
Proof.
  rewrite delete_user_result.
  destruct (negb (fits_int64 user_id)); [by left|by right].
Qed.

Lemma step_seq (o : op) (db : DB) :
  seq db <= seq (fst (step o db)) /\
  Forall (fun i => i <= seq (fst (step o db))) (snd (step o db)).
Proof.
  destruct o as [s name email password|user_id name email|user_id]; simpl.
  - rewrite create_user_eq.
    destruct (generate_password_hash s password) as [h|e];
      [|simpl; split; [lia|constructor]].
    destruct (next_rowid_above db) as (Hseq & _).
    destruct (sql_insert_cases name email h db) as [-> | [-> | [_ ->]]]; simpl;
      split; try lia; repeat constructor; lia.
  - destruct (update_user_rows user_id name email db) as [-> | ->]; simpl;
      split; try lia; constructor.
  - destruct (delete_user_rows user_id db) as [-> | ->]; simpl;
      split; try lia; constructor.
Qed.


(** ** The invariant holds in every state the store reaches *)

Lemma elem_of_fmap_filter {A B} (f : A -> B) (p : A -> bool) (l : list A) (y : B) :
  y ∈ f <$> List.filter p l -> y ∈ f <$> l.
Proof.
  intros Hy. apply list_elem_of_fmap in Hy as (x & -> & Hx).
  apply list_elem_of_In, filter_In in Hx as [Hx _].
  apply list_elem_of_fmap_2. by apply list_elem_of_In.
Qed.

Lemma NoDup_fmap_filter {A B} (f : A -> B) (p : A -> bool) (l : list A) :
  NoDup (f <$> l) -> NoDup (f <$> List.filter p l).
Proof.
  induction l as [|x l IH]; [done|].
  rewrite fmap_cons, NoDup_cons. intros [Hx Hl].
  cbn [List.filter]. destruct (p x); [|by apply IH].
  rewrite fmap_cons, NoDup_cons. split; [|by apply IH].
  intros Hin. apply Hx. by eapply elem_of_fmap_filter.
Qed.

Lemma sql_insert_wf (name email password : string) (db : DB) :
  wf_db db -> wf_db (fst (sql_insert name email password db)).
Proof.
  intros (Hids & Hemails & Hbound). unfold sql_insert.
  destruct (Z.ltb max_int64 (next_rowid db)); [done|].
  destruct (existsb _ (rows db)) eqn:E; simpl; [done|].
  pose proof (proj1 (existsb_false_iff _ _) E) as Hfresh.
  destruct (next_rowid_above db) as (Hseq & _ & Hrows).
  set (rowid := next_rowid db) in *.
  repeat split; simpl.
  - rewrite fmap_app. apply NoDup_app. split; [assumption|]. split.
    + intros i Hi Hi'. apply list_elem_of_singleton in Hi'. simpl in Hi'.
      apply list_elem_of_fmap in Hi as (r & -> & Hr).
      specialize (Hrows r Hr). lia.
    + apply NoDup_singleton.
  - rewrite fmap_app. apply NoDup_app. split; [assumption|]. split.
    + intros e He He'. apply list_elem_of_singleton in He'. simpl in He'.
      apply list_elem_of_fmap in He as (r & -> & Hr).
      specialize (Hfresh r Hr). simpl in Hfresh.
      apply String.eqb_neq in Hfresh. by apply Hfresh.
    + apply NoDup_singleton.
  - apply Forall_app. split.
    + eapply Forall_impl; [exact Hbound|]. intros r Hr. simpl in Hr. lia.
    + repeat constructor. simpl. lia.
Qed.

Lemma update_emails_NoDup (rs : list Row) (user_id : Z) (name email : string) :
  NoDup (row_id <$> rs) -> NoDup (row_email <$> rs) ->
  (forall r, r ∈ rs -> row_id r <> user_id -> row_email r <> email) ->
  NoDup (row_email <$>
           map (fun r => if Z.eqb (row_id r) user_id
                         then mkRow (row_id r) name email (row_password r)
                         else r) rs).
Proof.
  induction rs as [|x rs IH]; intros Hids Hemails Hother; [constructor|].
  cbn [map].
  rewrite fmap_cons, NoDup_cons in Hids.
  rewrite fmap_cons, NoDup_cons in Hemails.
  destruct Hids as [Hx Hids], Hemails as [Hxe Hemails].
  destruct (Z.eqb_spec (row_id x) user_id) as [E|Hne].
  - assert (Hrest : forall r, r ∈ rs -> row_id r <> user_id).
    { intros r Hr Hr'. apply Hx. rewrite E, <- Hr'. by apply list_elem_of_fmap_2. }
    rewrite map_no_hit by assumption.
    rewrite fmap_cons, NoDup_cons. split; [|assumption]. simpl.
    intros Hin. apply list_elem_of_fmap in Hin as (r & Hr' & Hr).
    apply (Hother r); [by constructor|by apply Hrest|done].
  - rewrite fmap_cons, NoDup_cons. split.
    + intros Hin. apply list_elem_of_fmap in Hin as (r' & Hr'e & Hr').
      apply list_elem_of_In, in_map_iff in Hr' as (r & <- & Hr).
      apply list_elem_of_In in Hr.
      destruct (Z.eqb_spec (row_id r) user_id) as [_|_]; simpl in Hr'e.
      * apply (Hother x); [constructor|assumption|assumption].
      * apply Hxe. rewrite Hr'e. by apply list_elem_of_fmap_2.
    + apply IH; [assumption|assumption|].
      intros r Hr. apply Hother. by constructor.
Qed.

Lemma sql_update_wf (name email : string) (user_id : Z) (db : DB) :
  wf_db db -> wf_db (fst (sql_update name email user_id db)).
Proof.
  intros (Hids & Hemails & Hbound). unfold sql_update.
  destruct (negb (fits_int64 user_id)); [done|].
  destruct (_ && _)%bool eqn:E; simpl; [done|].
  set (g := fun r => if Z.eqb (row_id r) user_id
                     then mkRow (row_id r) name email (row_password r) else r).
  assert (Hsame : row_id <$> map g (rows db) = row_id <$> rows db).
  { rewrite <- list_fmap_compose. apply list_fmap_ext. intros _ r _.
    unfold g. simpl. by destruct (Z.eqb (row_id r) user_id). }
  apply andb_false_iff in E as [E|E].
  - (* no row has the id *)
    assert (Hnone : forall r, r ∈ rows db -> row_id r <> user_id).
    { intros r Hr Hid. apply Nat.ltb_ge in E.
      assert (Hin : In r (List.filter (fun r => Z.eqb (row_id r) user_id) (rows db))).
      { apply filter_In. split; [by apply list_elem_of_In|by apply Z.eqb_eq]. }
      destruct (List.filter _ (rows db)); [inversion Hin|simpl in E; lia]. }
    unfold g. rewrite map_no_hit by assumption. done.
  - pose proof (proj1 (existsb_false_iff _ _) E) as Hother.
    repeat split; simpl.
    + by rewrite Hsame.
    + apply update_emails_NoDup; [assumption|assumption|].
      intros r Hr Hid. specialize (Hother r Hr). simpl in Hother.
      apply andb_false_iff in Hother as [Hother|Hother].
      * apply negb_false_iff, Z.eqb_eq in Hother. done.
      * by apply String.eqb_neq.
    + apply Forall_forall. intros r' Hr'.
      apply list_elem_of_In, in_map_iff in Hr' as (r & <- & Hr).
      apply list_elem_of_In in Hr.
      rewrite Forall_forall in Hbound. specialize (Hbound r Hr).
      unfold g. by destruct (Z.eqb (row_id r) user_id).
Qed.

Lemma sql_delete_wf (user_id : Z) (db : DB) :
  wf_db db -> wf_db (fst (sql_delete user_id db)).
Proof.
  intros (Hids & Hemails & Hbound). unfold sql_delete.
  destruct (negb (fits_int64 user_id)); [done|].
  repeat split; simpl.
  - by apply NoDup_fmap_filter.
  - by apply NoDup_fmap_filter.
  - apply Forall_forall. intros r Hr.
    apply list_elem_of_In, filter_In in Hr as [Hr _].
    rewrite Forall_forall in Hbound. apply Hbound. by apply list_elem_of_In.
Qed.

Lemma step_wf (o : op) (db : DB) : wf_db db -> wf_db (fst (step o db)).
Proof.
  intros Hwf. destruct o as [s name email password|user_id name email|user_id].
  - simpl. rewrite create_user_eq.
    destruct (generate_password_hash s password) as [h|e]; [|exact Hwf].
    pose proof (sql_insert_wf name email h db Hwf) as H.
    by destruct (sql_insert name email h db) as [db' [i|e]].
  - pose proof (sql_update_wf name email user_id db Hwf) as H.
    simpl. unfold update_user, bind, ret.
    by destruct (sql_update _ _ _ db) as [db' [n|e]].
  - pose proof (sql_delete_wf user_id db Hwf) as H.
    simpl. unfold delete_user, bind, ret.
    by destruct (sql_delete _ db) as [db' [n|e]].
Qed.

(** Every table reached from a well-formed one, in particular from the
    empty table of [init_db.py], is well-formed. *)
Lemma run_wf (ops : list op) :
  forall db, wf_db db -> wf_db (fst (run ops db)).
Proof.
  induction ops as [|o ops IH]; intros db Hwf; simpl; [assumption|].
  pose proof (step_wf o db Hwf) as Hstep.
  destruct (step o db) as [db1 issued1]. simpl in Hstep.
  specialize (IH db1 Hstep).
  by destruct (run ops db1) as [db2 issued2].
Qed.

Lemma empty_db_wf : wf_db empty_db.
Proof. repeat split; constructor. Qed.

(** Every table reached from one of 64-bit rowids has 64-bit rowids. *)
Lemma step_rowids_fit (o : op) (db : DB) :
  rowids_fit db -> rowids_fit (fst (step o db)).
Proof.
  unfold rowids_fit. intros Hfit.
  destruct o as [s name email password|user_id name email|user_id]; simpl.
  - rewrite create_user_eq.
    destruct (generate_password_hash s password) as [h|e]; [|exact Hfit].
    destruct (sql_insert_cases name email h db) as [-> | [-> | [Hleft ->]]];
      simpl; try exact Hfit.
    apply Forall_app. split; [exact Hfit|].
    repeat constructor. simpl. by apply next_rowid_fits.
  - destruct (update_user_rows user_id name email db) as [-> | ->];
      [exact Hfit|]. simpl.
    apply Forall_forall. intros r' Hr'.
    apply list_elem_of_In, in_map_iff in Hr' as (r & <- & Hr).
    apply list_elem_of_In in Hr.
    rewrite Forall_forall in Hfit. specialize (Hfit r Hr).
    by destruct (Z.eqb (row_id r) user_id).
  - destruct (delete_user_rows user_id db) as [-> | ->]; [exact Hfit|]. simpl.
    apply Forall_forall. intros r Hr.
    apply list_elem_of_In, filter_In in Hr as [Hr _].
    rewrite Forall_forall in Hfit. apply Hfit. by apply list_elem_of_In.
Qed.

Lemma run_rowids_fit (ops : list op) :
  forall db, rowids_fit db -> rowids_fit (fst (run ops db)).
Proof.
  induction ops as [|o ops IH]; intros db Hfit; simpl; [assumption|].
  pose proof (step_rowids_fit o db Hfit) as Hstep.
  destruct (step o db) as [db1 issued1]. simpl in Hstep.
  specialize (IH db1 Hstep).
  by destruct (run ops db1) as [db2 issued2].
Qed.

(** ** The claims about the store *)

Lemma get_user_by_id_fits (user_id : Z) (db : DB) :
  fits_int64 user_id = true ->
  get_user_by_id user_id db =
    (db, Return (option_map dict_id_name_email
                   (find (fun r => Z.eqb (row_id r) user_id) (rows db)))).
Proof. intros H. unfold get_user_by_id. by rewrite H. Qed.

Lemma get_user_by_id_overflow (user_id : Z) (db : DB) :
  fits_int64 user_id = false ->
  get_user_by_id user_id db = (db, Raise OverflowError).
Proof. intros H. unfold get_user_by_id. by rewrite H. Qed.



Lemma dict_id_name_email_fields (r : Row) :
  only_id_name_email (dict_id_name_email r).
Proof. repeat split. Qed.

Lemma filter_with_passwords (f : Row -> string) (p : Row -> bool) (rs : list Row) :
  (forall r, p (mkRow (row_id r) (row_name r) (row_email r) (f r)) = p r) ->
  map dict_id_name_email
    (List.filter p (map (fun r => mkRow (row_id r) (row_name r) (row_email r) (f r)) rs))
  = map dict_id_name_email (List.filter p rs).
Proof.
  intros Hp. induction rs as [|r rs IH]; simpl; [reflexivity|].
  rewrite Hp. destruct (p r); simpl; by rewrite IH.
Qed.

Lemma find_with_passwords (f : Row -> string) (p : Row -> bool) (rs : list Row) :
  (forall r, p (mkRow (row_id r) (row_name r) (row_email r) (f r)) = p r) ->
  option_map dict_id_name_email
    (find p (map (fun r => mkRow (row_id r) (row_name r) (row_email r) (f r)) rs))
  = option_map dict_id_name_email (find p rs).
Proof.
  intros Hp. induction rs as [|r rs IH]; simpl; [reflexivity|].
  rewrite Hp. destruct (p r); simpl; [reflexivity|exact IH].
Qed.

Lemma existsb_with_passwords (f : Row -> string) (p : Row -> bool) (rs : list Row) :
  (forall r, p (mkRow (row_id r) (row_name r) (row_email r) (f r)) = p r) ->
  existsb p (map (fun r => mkRow (row_id r) (row_name r) (row_email r) (f r)) rs)
  = existsb p rs.
Proof.
  intros Hp. induction rs as [|r rs IH]; simpl; [reflexivity|].
  by rewrite Hp, IH.
Qed.

Lemma count_with_passwords (f : Row -> string) (p : Row -> bool) (rs : list Row) :
  (forall r, p (mkRow (row_id r) (row_name r) (row_email r) (f r)) = p r) ->
  List.length
    (List.filter p (map (fun r => mkRow (row_id r) (row_name r) (row_email r) (f r)) rs))
  = List.length (List.filter p rs).
Proof.
  intros Hp. induction rs as [|r rs IH]; simpl; [reflexivity|].
  rewrite Hp. destruct (p r); simpl; by rewrite IH.
Qed.

Lemma max_rowid_with_passwords (f : Row -> string) (rs : list Row) :
  max_rowid (map (fun r => mkRow (row_id r) (row_name r) (row_email r) (f r)) rs)
  = max_rowid rs.
Proof. induction rs as [|r rs IH]; simpl; [reflexivity|]. by rewrite IH. Qed.

(** [create_user], [update_user] and [delete_user] return or raise the same
    whatever the stored password hashes are. *)
Lemma writes_ignore_passwords (f : Row -> string) (db : DB) (s : salt)
    (user_id : Z) (name email password : string) :
  snd (create_user s name email password (with_passwords f db))
  = snd (create_user s name email password db) /\
  snd (update_user user_id name email (with_passwords f db))
  = snd (update_user user_id name email db) /\
  snd (delete_user user_id (with_passwords f db))
  = snd (delete_user user_id db).
Proof.
  split; [|split].
  - rewrite !create_user_eq.
    destruct (generate_password_hash s password) as [h|e]; [|reflexivity].
    unfold sql_insert, next_rowid, with_passwords. simpl.
    rewrite existsb_with_passwords, max_rowid_with_passwords by reflexivity.
    destruct (Z.ltb max_int64 _); [reflexivity|].
    by destruct (existsb _ (rows db)).
  - unfold update_user, bind, ret, sql_update, with_passwords. simpl.
    destruct (negb (fits_int64 user_id)); [reflexivity|].
    rewrite existsb_with_passwords, count_with_passwords by reflexivity.
    by destruct (_ && _)%bool.
  - unfold delete_user, bind, ret, sql_delete, with_passwords. simpl.
    destruct (negb (fits_int64 user_id)); [reflexivity|].
    by rewrite count_with_passwords by reflexivity.
Qed.

(** ** Facts about the SELECT of the search *)

Lemma select_where_name_like_short (pattern : string) (rs : list Row) :
  utf8_len pattern <= SQLITE_MAX_LIKE_PATTERN_LENGTH ->
  select_where_name_like pattern rs =
    Some (List.filter (fun r => like (c_str pattern) (c_str (row_name r))) rs).
Proof.
  intros Hshort. induction rs as [|r rs IH]; simpl; [reflexivity|].
  unfold likeFunc.
  destruct (Z.ltb_spec SQLITE_MAX_LIKE_PATTERN_LENGTH (utf8_len pattern)); [lia|].
  rewrite IH. by destruct (like _ _).
Qed.

Lemma select_where_name_like_long (pattern : string) (rs : list Row) :
  SQLITE_MAX_LIKE_PATTERN_LENGTH < utf8_len pattern -> rs <> [] ->
  select_where_name_like pattern rs = None.
Proof.
  intros Hlong Hrs. destruct rs as [|r rs]; [done|]. simpl. unfold likeFunc.
  destruct (Z.ltb_spec SQLITE_MAX_LIKE_PATTERN_LENGTH (utf8_len pattern));
    [reflexivity|lia].
Qed.

(** The rows selected are rows of the table, in its order. *)
Lemma select_where_name_like_hits (pattern : string) (rs hits : list Row) :
  select_where_name_like pattern rs = Some hits ->
  hits = List.filter (fun r => like (c_str pattern) (c_str (row_name r))) rs.
Proof.
  revert hits. induction rs as [|r rs IH]; intros hits; simpl.
  - intros H. by inversion H.
  - unfold likeFunc. destruct (Z.ltb _ _); [discriminate|].
    destruct (select_where_name_like pattern rs) as [hits'|]; [|discriminate].
    intros H. inversion H; subst. rewrite (IH hits' eq_refl).
    by destruct (like _ _).
Qed.

Lemma select_with_passwords (f : Row -> string) (pattern : string) (rs : list Row) :
  option_map (map dict_id_name_email)
    (select_where_name_like pattern
       (map (fun r => mkRow (row_id r) (row_name r) (row_email r) (f r)) rs))
  = option_map (map dict_id_name_email) (select_where_name_like pattern rs).
Proof.
  induction rs as [|r rs IH]; simpl; [reflexivity|].
  destruct (likeFunc pattern (row_name r)) as [matched|]; [|reflexivity].
  destruct (select_where_name_like pattern (map _ rs)) as [hits1|],
           (select_where_name_like pattern rs) as [hits2|];
    simpl in *; try discriminate; [|reflexivity].
  inversion IH as [IH']. destruct matched; simpl; by rewrite ?IH'.
Qed.

Lemma search_users_short (name : string) (db : DB) :
  utf8_len ("%" +:+ name +:+ "%") <= SQLITE_MAX_LIKE_PATTERN_LENGTH ->
  search_users name db =
    (db, Return (map dict_id_name_email
                   (List.filter
                      (fun r => like (c_str ("%" +:+ name +:+ "%"))
                                  (c_str (row_name r)))
                      (rows db)))).
Proof.
  intros Hshort. unfold search_users.
  by rewrite select_where_name_like_short.
Qed.

Lemma search_users_long (name : string) (db : DB) :
  SQLITE_MAX_LIKE_PATTERN_LENGTH < utf8_len ("%" +:+ name +:+ "%") ->
  rows db <> [] ->
  search_users name db =
    (db, Raise (OperationalError "LIKE or GLOB pattern too complex")).
Proof.
  intros Hlong Hrows. unfold search_users.
  by rewrite select_where_name_like_long.
Qed.

(** C3.  Every record that [get_all_users], [get_user_by_id] and
    [search_users] return has exactly the keys id, name and email, and
    neither a password nor a password_hash key; the first always returns, the
    second for every id of 64 bits, the third for every search string whose
    pattern LIKE accepts; what the three return or raise does not depend on
    the stored password hashes: it is the same after the hashes are
    rewritten in any way; and neither does what [create_user],
    [update_user] and [delete_user] return or raise, which leaves
    [verify_login] as the only reader of the hash. *)
Theorem reads_never_return_password (db : DB) (user_id : Z) (name : string) :
  (exists users,
      get_all_users db = (db, Return users) /\
      Forall only_id_name_email users /\
      forall f, snd (get_all_users (with_passwords f db)) = Return users) /\
  (exists result,
      get_user_by_id user_id db = (db, result) /\
      (forall d, result = Return (Some d) -> only_id_name_email d) /\
      (forall f, snd (get_user_by_id user_id (with_passwords f db)) = result) /\
      (fits_int64 user_id = true -> exists user, result = Return user)) /\
  (exists result,
      search_users name db = (db, result) /\
      (forall users, result = Return users ->
                     Forall only_id_name_email users) /\
      (forall f, snd (search_users name (with_passwords f db)) = result) /\
      (utf8_len ("%" +:+ name +:+ "%") <= SQLITE_MAX_LIKE_PATTERN_LENGTH ->
       exists users, result = Return users)) /\
  (forall f s email password,
      snd (create_user s name email password (with_passwords f db))
      = snd (create_user s name email password db) /\
      snd (update_user user_id name email (with_passwords f db))
      = snd (update_user user_id name email db) /\
      snd (delete_user user_id (with_passwords f db))
      = snd (delete_user user_id db)).
Proof.
  split; [|split; [|split; [|intros; apply writes_ignore_passwords]]].
  - eexists. split; [reflexivity|]. split.
    + apply Forall_forall. intros d Hd. apply list_elem_of_In, in_map_iff in Hd.
      destruct Hd as (r & <- & _). apply dict_id_name_email_fields.
    + intros f. unfold get_all_users, with_passwords. simpl. f_equal.
      rewrite map_map. reflexivity.
  - destruct (fits_int64 user_id) eqn:Hfits.
    + eexists. split; [by apply get_user_by_id_fits|]. split; [|split].
      * intros d Hd. inversion Hd as [Hd'].
        destruct (find _ (rows db)) as [r|]; simpl in Hd'; [|discriminate].
        inversion Hd'. apply dict_id_name_email_fields.
      * intros f. rewrite get_user_by_id_fits by assumption.
        unfold with_passwords. simpl. f_equal. by apply find_with_passwords.
      * eauto.
    + eexists. split; [by apply get_user_by_id_overflow|]. split; [|split].
      * discriminate.
      * intros f. by rewrite get_user_by_id_overflow.
      * discriminate.
  - unfold search_users.
    destruct (select_where_name_like _ (rows db)) as [hits|] eqn:Hselect.
    + eexists. split; [reflexivity|]. split; [|split].
      * intros users Husers. inversion Husers; subst.
        apply Forall_forall. intros d Hd. apply list_elem_of_In, in_map_iff in Hd.
        destruct Hd as (r & <- & _). apply dict_id_name_email_fields.
      * intros f. unfold with_passwords. simpl.
        pose proof (select_with_passwords f ("%" +:+ name +:+ "%") (rows db)) as H.
        rewrite Hselect in H.
        destruct (select_where_name_like _ (map _ (rows db))) as [hits'|];
          simpl in H; [|discriminate].
        inversion H as [H']. simpl. by rewrite H'.
      * eauto.
    + eexists. split; [reflexivity|]. split; [|split].
      * discriminate.
      * intros f. unfold with_passwords. simpl.
        pose proof (select_with_passwords f ("%" +:+ name +:+ "%") (rows db)) as H.
        rewrite Hselect in H.
        by destruct (select_where_name_like _ (map _ (rows db))) as [hits'|].
      * intros Hshort. rewrite select_where_name_like_short in Hselect by assumption.
        discriminate.
Qed.

(** ** LIKE against the documented search *)

Lemma nocase_prefix_spec (s : string) :
  forall t,
    nocase_prefix s t = true <->
    exists mid post, t = mid +:+ post /\ nocase_equal s mid = true.
Proof.
  induction s as [|c s IH]; intros t; simpl.
  - split; [|reflexivity]. intros _. by exists EmptyString, t.
  - destruct t as [|d t].
    + split; [discriminate|]. intros (mid & post & Ht & Hmid).
      destruct mid; [discriminate Hmid|discriminate Ht].
    + rewrite andb_true_iff, IH. split.
      * intros (Hcd & mid & post & -> & Hmid).
        exists (String d mid), post. simpl. by rewrite Hcd, Hmid.
      * intros (mid & post & Ht & Hmid).
        destruct mid as [|d' mid]; [discriminate Hmid|].
        simpl in Ht. inversion Ht; subst.
        apply andb_true_iff in Hmid as [Hcd Hmid]. eauto.
Qed.

Lemma contains_nocase_spec (s t : string) :
  contains_nocase s t = true <-> occurs_nocase s t.
Proof.
  unfold occurs_nocase. induction t as [|d t IH].
  - simpl. rewrite orb_false_r, nocase_prefix_spec. split.
    + intros (mid & post & Ht & Hmid). by exists EmptyString, mid, post.
    + intros (pre & mid & post & Ht & Hmid).
      destruct pre; [|discriminate Ht]. exists mid, post. split; [exact Ht|exact Hmid].
  - simpl contains_nocase. rewrite orb_true_iff, IH, nocase_prefix_spec. split.
    + intros [(mid & post & Ht & Hmid)|(pre & mid & post & Ht & Hmid)].
      * by exists EmptyString, mid, post.
      * exists (String d pre), mid, post. simpl. by rewrite Ht.
    + intros (pre & mid & post & Ht & Hmid). destruct pre as [|d' pre].
      * left. exists mid, post. split; [exact Ht|exact Hmid].
      * right. simpl in Ht. inversion Ht; subst. eauto.
Qed.

Lemma like_percent_step (p : string) (t : string) :
  like (String "%" p) t =
    like p t || match t with
                | EmptyString => false
                | String _ t' => like (String "%" p) t'
                end.
Proof. destruct t; reflexivity. Qed.

Lemma like_percent_only (t : string) : like "%" t = true.
Proof.
  induction t as [|d t IH]; [reflexivity|].
  rewrite like_percent_step. simpl. exact IH.
Qed.

Lemma like_literal_then_percent (s : string) :
  wildcard_free s = true ->
  forall t, like (s +:+ "%") t = nocase_prefix s t.
Proof.
  induction s as [|c s IH]; intros Hs t.
  - apply like_percent_only.
  - simpl in Hs. apply andb_true_iff in Hs as [Hc Hs].
    apply andb_true_iff in Hc as [Hp Hu].
    apply negb_true_iff in Hp, Hu.
    simpl. rewrite Hp, Hu. destruct t as [|d t]; [reflexivity|].
    by rewrite IH.
Qed.

(** For a search string without wildcards, the LIKE of [search_users] is the
    documented substring test. *)
Lemma like_is_contains_nocase (s t : string) :
  wildcard_free s = true ->
  like ("%" +:+ s +:+ "%") t = contains_nocase s t.
Proof.
  intros Hs. change ("%" +:+ s +:+ "%") with (String "%" (s +:+ "%")).
  induction t as [|d t IH].
  - rewrite like_percent_step, like_literal_then_percent by assumption.
    reflexivity.
  - rewrite like_percent_step, like_literal_then_percent, IH by assumption.
    reflexivity.
Qed.

Lemma utf8_len_app (s t : string) :
  utf8_len (s +:+ t) = utf8_len s + utf8_len t.
Proof.
  induction s as [|c s IH]; [reflexivity|].
  change (String c s +:+ t) with (String c (s +:+ t)).
  cbn [utf8_len]. rewrite IH. lia.
Qed.

Lemma utf8_len_nonneg (s : string) : 0 <= utf8_len s.
Proof.
  induction s as [|c s IH]; cbn [utf8_len]; [lia|].
  destruct (Nat.ltb _ 128); lia.
Qed.

(** The length of the pattern that [search_users] builds. *)
Lemma utf8_len_pattern (name : string) :
  utf8_len ("%" +:+ name +:+ "%") = utf8_len name + 2.
Proof.
  change ("%" +:+ name +:+ "%") with (String "%" (name +:+ "%")).
  cbn [utf8_len]. rewrite utf8_len_app.
  change (utf8_len "%") with 1. change (Nat.ltb (nat_of_ascii "%") 128) with true.
  cbv iota. lia.
Qed.

Lemma c_str_nul_free (s : string) : nul_free s = true -> c_str s = s.
Proof.
  induction s as [|c s IH]; [reflexivity|]. cbn [nul_free c_str].
  intros H. apply andb_true_iff in H as [Hc Hs]. apply negb_true_iff in Hc.
  by rewrite Hc, IH.
Qed.

Lemma nul_free_app (s t : string) :
  nul_free (s +:+ t) = (nul_free s && nul_free t)%bool.
Proof.
  induction s as [|c s IH]; [reflexivity|].
  change (String c s +:+ t) with (String c (s +:+ t)).
  cbn [nul_free]. by rewrite IH, andb_assoc.
Qed.

Lemma c_str_pattern (name : string) :
  nul_free name = true ->
  c_str ("%" +:+ name +:+ "%") = "%" +:+ name +:+ "%".
Proof.
  intros H. apply c_str_nul_free.
  change ("%" +:+ name +:+ "%") with (String "%" (name +:+ "%")).
  cbn [nul_free]. rewrite nul_free_app, H. reflexivity.
Qed.

(** For a search string without wildcards and without NUL whose pattern
    LIKE accepts, the search is the documented substring test on the names
    as C strings. *)
Lemma search_users_wildcard_free (name : string) (db : DB) :
  wildcard_free name = true ->
  nul_free name = true ->
  utf8_len ("%" +:+ name +:+ "%") <= SQLITE_MAX_LIKE_PATTERN_LENGTH ->
  search_users name db =
    (db, Return (map dict_id_name_email
                   (List.filter
                      (fun r => contains_nocase name (c_str (row_name r)))
                      (rows db)))).
Proof.
  intros Hs Hnul Hshort. rewrite search_users_short by assumption.
  rewrite c_str_pattern by assumption. do 3 f_equal.
  apply List.filter_ext. intros r. by apply like_is_contains_nocase.
Qed.

Lemma search_users_empty_string (db : DB) :
  search_users "" db = get_all_users db.
Proof.
  rewrite search_users_wildcard_free by (reflexivity || (vm_compute; discriminate)).
  unfold get_all_users. do 3 f_equal.
  induction (rows db) as [|r rs IH]; simpl; [reflexivity|].
  replace (contains_nocase "" (c_str (row_name r))) with true
    by (by destruct (c_str (row_name r))).
  by rewrite IH.
Qed.

(** The spec's example: "oh" finds John Doe and Bob Johnson among the sample
    users, and a string that occurs in no name finds nobody. *)
Lemma search_users_sample (s1 s2 s3 : salt) :
  let db := init_db s1 s2 s3 in
  snd (search_users "oh" db) =
    Return [ {[ "id" := JInt 1; "name" := JStr "John Doe";
                "email" := JStr "john@example.com" ]};
             {[ "id" := JInt 3; "name" := JStr "Bob Johnson";
                "email" := JStr "bob@example.com" ]} ] /\
  snd (search_users "xyz" db) = Return [].
Proof. split; reflexivity. Qed.

(** C6.  On the sample users of [init_db], [search_users "_"] returns all
    three users although "_" occurs in none of the three names: a [_] (and
    likewise a [%]) in the search string reaches LIKE as a wildcard. *)
Theorem search_users_underscore_is_wildcard (s1 s2 s3 : salt) :
  let db := init_db s1 s2 s3 in
  snd (search_users "_" db) = snd (get_all_users db) /\
  List.length (rows db) = 3%nat /\
  Forall (fun r => contains_nocase "_" (row_name r) = false) (rows db) /\
  snd (search_users "%" db) = snd (get_all_users db) /\
  Forall (fun r => contains_nocase "%" (row_name r) = false) (rows db).
Proof. repeat split; repeat constructor. Qed.

(** ** [Schema.load] *)

Lemma run_validator_passes (v : validator) (value : string) :
  run_validator v value = [] <-> passes v value = true.
Proof.
  destruct v as [min|]; simpl.
  - destruct (Nat.ltb_spec (String.length value) min) as [Hlt|Hge].
    + split; [discriminate|]. intros H. apply Nat.leb_le in H. lia.
    + split; [|reflexivity]. intros _. by apply Nat.leb_le.
  - destruct (valid_email value); split; auto; discriminate.
Qed.

Lemma validators_pass (vs : list validator) (value : string) :
  flat_map (fun v => run_validator v value) vs = [] <->
  forall v, v ∈ vs -> passes v value = true.
Proof.
  induction vs as [|v vs IH]; simpl.
  - split; [|reflexivity]. intros _ v Hv. inversion Hv.
  - split.
    + intros H. apply app_eq_nil in H as [Hv Hvs].
      intros v' Hv'. inversion Hv'; subst.
      * by apply run_validator_passes.
      * by apply IH.
    + intros H. apply app_nil; split.
      * apply run_validator_passes, H. constructor.
      * apply IH. intros v' Hv'. apply H. by constructor.
Qed.

Lemma validators_fail (vs : list validator) (value msg : string)
    (msgs : list string) :
  flat_map (fun v => run_validator v value) vs = msg :: msgs ->
  exists v, v ∈ vs /\ passes v value = false.
Proof.
  induction vs as [|v vs IH]; simpl; [discriminate|].
  destruct (passes v value) eqn:Ev.
  - rewrite (proj2 (run_validator_passes v value) Ev). simpl. intros H.
    destruct (IH H) as (v' & Hv' & Hfail). exists v'. split; [by constructor|done].
  - intros _. exists v. split; [constructor|done].
Qed.

Lemma deserialize_offending (f : field) (m : gmap string json) :
  offending f m <-> exists messages, deserialize f (m !! attr f) = inl messages.
Proof.
  unfold offending, deserialize.
  destruct (m !! attr f) as [[| | | |value| |]|]; try (split; eauto; fail).
  - destruct (flat_map _ (validate f)) as [|msg msgs] eqn:E.
    + pose proof (proj1 (validators_pass _ _) E) as Hall. split.
      * intros (v & Hv & Hfail). rewrite (Hall v Hv) in Hfail. discriminate.
      * intros (? & ?). discriminate.
    + split; [eauto|]. intros _. eapply validators_fail. exact E.
  - destruct (required f); split; eauto; try discriminate.
    intros (? & ?). discriminate.
Qed.

Lemma store_error_dom (errors : gmap string (list string)) (key k : string)
    (messages : list string) :
  k ∈ dom (store_error errors key messages) <-> k = key \/ k ∈ dom errors.
Proof. unfold store_error. rewrite dom_insert_L. set_solver. Qed.

Lemma deserialize_fields_errors (fs : list field) (m : gmap string json) :
  forall errors ret_d k,
    k ∈ dom (deserialize_fields fs m errors ret_d).1 <->
    k ∈ dom errors \/ exists f, f ∈ fs /\ attr f = k /\ offending f m.
Proof.
  induction fs as [|f fs IH]; intros errors ret_d k; simpl.
  - split; [by left|]. intros [H|(f & Hf & _)]; [assumption|inversion Hf].
  - pose proof (deserialize_offending f m) as Hoff.
    destruct (deserialize f (m !! attr f)) as [messages|[value|]].
    + rewrite IH, store_error_dom. split.
      * intros [[->|H]|(g & Hg & Hk & Hg')].
        -- right. exists f. split; [constructor|]. split; [reflexivity|].
           apply Hoff. eauto.
        -- by left.
        -- right. exists g. split; [by constructor|done].
      * intros [H|(g & Hg & Hk & Hg')]; [by left; right|].
        inversion Hg; subst; [by left; left|].
        right. exists g. done.
    + rewrite IH. split.
      * intros [H|(g & Hg & Hk & Hg')]; [by left|].
        right. exists g. split; [by constructor|done].
      * intros [H|(g & Hg & Hk & Hg')]; [by left|].
        inversion Hg; subst.
        -- apply Hoff in Hg' as (? & ?). discriminate.
        -- right. exists g. done.
    + rewrite IH. split.
      * intros [H|(g & Hg & Hk & Hg')]; [by left|].
        right. exists g. split; [by constructor|done].
      * intros [H|(g & Hg & Hk & Hg')]; [by left|].
        inversion Hg; subst.
        -- apply Hoff in Hg' as (? & ?). discriminate.
        -- right. exists g. done.
Qed.

Lemma unknown_errors_dom (errors : gmap string (list string)) (X : gset string)
    (k : string) :
  k ∈ dom (set_fold (fun key errs => store_error errs key ["Unknown field."])
             errors X) <->
  k ∈ dom errors \/ k ∈ X.
Proof.
  revert k.
  apply (set_fold_ind_L
           (fun (r : gmap string (list string)) (Y : gset string) =>
              forall k, k ∈ dom r <-> k ∈ dom errors \/ k ∈ Y)).
  - intros k. rewrite elem_of_empty. tauto.
  - intros x Y r _ IH k.
    rewrite store_error_dom, IH, elem_of_union, elem_of_singleton. tauto.
Qed.

(** The keys of the messages of a load: the offending fields of the schema
    and the keys of the body that the schema does not declare. *)
Lemma load_object (schema : list field) (m : gmap string json) :
  exists errors ret_d,
    (forall k, k ∈ dom errors <->
               (exists f, f ∈ schema /\ attr f = k /\ offending f m) \/
               (k ∈ dom m /\ k ∉ attr <$> schema)) /\
    load schema (JObject m) =
      if Nat.eqb (size errors) 0 then Return ret_d
      else Raise (ValidationError errors).
Proof.
  unfold load.
  pose proof (deserialize_fields_errors schema m ∅ ∅) as Hfields.
  destruct (deserialize_fields schema m ∅ ∅) as [errors ret_d].
  eexists _, ret_d. split; [|reflexivity].
  intros k. rewrite unknown_errors_dom, Hfields. simpl.
  rewrite dom_empty_L, elem_of_empty, elem_of_difference, elem_of_list_to_set.
  tauto.
Qed.

Lemma load_rejects (schema : list field) (m : gmap string json) (f : field) :
  f ∈ schema -> offending f m ->
  exists messages,
    load schema (JObject m) = Raise (ValidationError messages) /\
    (forall g, g ∈ schema -> offending g m -> is_Some (messages !! attr g)).
Proof.
  intros Hf Hoff. destruct (load_object schema m) as (errors & ret_d & Hdom & ->).
  assert (Hin : forall g, g ∈ schema -> offending g m -> attr g ∈ dom errors).
  { intros g Hg Hg'. apply Hdom. left. by exists g. }
  exists errors. split.
  - destruct (Nat.eqb_spec (size errors) 0) as [E|_]; [|reflexivity].
    apply map_size_empty_iff in E. specialize (Hin f Hf Hoff).
    rewrite E, dom_empty_L in Hin. set_solver.
  - intros g Hg Hg'. apply elem_of_dom. by apply Hin.
Qed.

(** The falsy bodies, one by one. *)
Lemma falsy_bodies (data : json) :
  truthy data = false <->
  data = JNull \/ data = JBool false \/ data = JInt 0 \/
  (exists x, data = JFloat x /\ PrimFloat.eqb x 0%float = true) \/
  data = JStr "" \/ data = JList [] \/ data = JObject ∅.
Proof.
  split.
  - destruct data as [|b|n|x|s|l|m]; simpl; intros H.
    + by left.
    + right; left. by rewrite H.
    + right; right; left. apply negb_false_iff, Z.eqb_eq in H. by rewrite H.
    + right; right; right; left. exists x. split; [done|].
      by apply negb_false_iff in H.
    + right; right; right; right; left.
      apply negb_false_iff, String.eqb_eq in H. by rewrite H.
    + right; right; right; right; right; left.
      apply negb_false_iff, Nat.eqb_eq in H. by destruct l.
    + right; right; right; right; right; right.
      apply negb_false_iff, Nat.eqb_eq, map_size_empty_iff in H. by rewrite H.
  - intros [-> | [-> | [-> | [(x & -> & Hx) | [-> | [-> | ->]]]]]];
      try reflexivity.
    simpl. by rewrite Hx.
Qed.

Lemma truthy_object (m : gmap string json) : m <> ∅ -> truthy (JObject m) = true.
Proof.
  intros Hm. simpl. apply negb_true_iff, Nat.eqb_neq.
  by apply map_size_non_empty_iff.
Qed.

(** Bodies that pass validation. *)

Lemma deserialize_passing (f : field) (value : string) :
  (forall v, v ∈ validate f -> passes v value = true) ->
  deserialize f (Some (JStr value)) = inr (Some value).
Proof.
  intros H. unfold deserialize.
  by rewrite (proj2 (validators_pass (validate f) value) H).
Qed.



(** [LoginSchema] puts no constraint on the password string. *)
Lemma load_login_body (email password : string) :
  valid_email email = true ->
  load LoginSchema (login_body email password) =
    Return {[ "email" := email; "password" := password ]}.
Proof.
  intros Hemail.
  unfold load, login_body, LoginSchema.
  cbn [deserialize_fields attr fields_Str fields_Email].
  set (m := ({[ "email" := JStr email; "password" := JStr password ]}
             : gmap string json)).
  change (m !! "email") with (Some (JStr email)).
  change (m !! "password") with (Some (JStr password)).
  rewrite !deserialize_passing.
  - reflexivity.
  - intros v Hv. inversion Hv.
  - intros v Hv. apply list_elem_of_singleton in Hv as ->. exact Hemail.
Qed.

(** ** The handlers on bodies that pass validation *)

Lemma route_login_valid (email password : string) (db : DB) :
  valid_email email = true ->
  route_login (json_body (login_body email password)) db =
    match find (fun r => String.eqb (row_email r) email) (rows db) with
    | Some r =>
        if check_password_hash (row_password r) password
        then (db, Return (login_success_response (row_id r)))
        else (db, Return invalid_credentials_response)
    | None => (db, Return invalid_credentials_response)
    end.
Proof.
  intros Hemail. unfold route_login, try_except, bind, lift, get_json, ret.
  change (truthy (login_body email password)) with true. cbv beta iota.
  unfold negb. rewrite load_login_body by assumption.
  set (validated_data := {[ "email" := email; "password" := password ]}
                         : gmap string string).
  change (getitem validated_data "email" db) with (db, Return email).
  cbv beta iota.
  change (getitem validated_data "password" db) with (db, Return password).
  cbv beta iota. unfold verify_login.
  destruct (find _ (rows db)) as [r|]; [|reflexivity].
  destruct (check_password_hash _ _); reflexivity.
Qed.


(** ** The handlers on bodies that fail validation *)

Lemma route_create_user_rejects (s : salt) (m : gmap string json)
    (messages : gmap string (list string)) (db : DB) :
  m <> ∅ ->
  load UserSchema (JObject m) = Raise (ValidationError messages) ->
  route_create_user s (json_body (JObject m)) db =
    (db, Return (validation_error_response messages)).
Proof.
  intros Hm Hload. unfold route_create_user, try_except, bind, lift, get_json, ret.
  rewrite (truthy_object m Hm), Hload. reflexivity.
Qed.

Lemma route_update_user_rejects (user_id : Z) (m : gmap string json)
    (messages : gmap string (list string)) (db : DB) :
  m <> ∅ ->
  load UserUpdateSchema (JObject m) = Raise (ValidationError messages) ->
  route_update_user user_id (json_body (JObject m)) db =
    (db, Return (validation_error_response messages)).
Proof.
  intros Hm Hload. unfold route_update_user, try_except, bind, lift, get_json, ret.
  rewrite (truthy_object m Hm), Hload. reflexivity.
Qed.

Lemma route_login_rejects (m : gmap string json)
    (messages : gmap string (list string)) (db : DB) :
  m <> ∅ ->
  load LoginSchema (JObject m) = Raise (ValidationError messages) ->
  route_login (json_body (JObject m)) db =
    (db, Return (validation_error_response messages)).
Proof.
  intros Hm Hload. unfold route_login, try_except, bind, lift, get_json, ret.
  rewrite (truthy_object m Hm), Hload. reflexivity.
Qed.

(** ** The claims about the handlers *)





(** C10, as amended.  [POST /users], [PUT /user/<id>] and [POST /login]
    answer a JSON body that is falsy ([{}], [[]], [""], [0], [0.0], [false],
    [null]) with 400 and error No input data provided, the same for all of
    them; the answer carries no validation messages and the table is as it
    was.  A request without a JSON body does not reach that answer:
    [request.get_json()] raises [UnsupportedMediaType], or [BadRequest] when
    the body does not parse, and the handlers let it escape. *)
Theorem falsy_body_is_no_input
    (s : salt) (user_id : Z) (data : json) (db : DB) :
  truthy data = false ->
  route_create_user s (json_body data) db =
    (db, Return (JObject {[ "error" := JStr "No input data provided" ]},
                 BAD_REQUEST)) /\
  route_update_user user_id (json_body data) db =
    route_create_user s (json_body data) db /\
  route_login (json_body data) db = route_create_user s (json_body data) db /\
  route_create_user s (json_body JNull) db =
    route_create_user s (json_body data) db /\
  route_update_user user_id (json_body JNull) db =
    route_update_user user_id (json_body data) db /\
  route_login (json_body JNull) db = route_login (json_body data) db /\
  (forall messages,
      route_create_user s (json_body data) db <>
        (db, Return (validation_error_response messages))) /\
  status_code BAD_REQUEST = 400 /\
  route_create_user s not_json db = (db, Raise UnsupportedMediaType) /\
  route_update_user user_id not_json db = (db, Raise UnsupportedMediaType) /\
  route_login not_json db = (db, Raise UnsupportedMediaType) /\
  route_create_user s malformed_json db = (db, Raise BadRequest) /\
  route_update_user user_id malformed_json db = (db, Raise BadRequest) /\
  route_login malformed_json db = (db, Raise BadRequest).
Proof.
  intros Hfalsy.
  unfold route_create_user, route_update_user, route_login, try_except, bind,
    get_json, ret, raise.
  rewrite Hfalsy. simpl.
  repeat (split; [reflexivity|]). split; [|repeat split].
  intros messages E. unfold validation_error_response, no_input_response in E.
  inversion E.
Qed.

(** C8, as amended.  For a body that is a non-empty JSON object, when one
    or more fields of the schema are offending (missing though required, not
    a string, or failing a constraint), [POST /users], [PUT /user/<id>] and
    [POST /login] each answer with the one validation error, 400, whose
    messages have an entry for every offending field, and the table is as it
    was. *)
Theorem validation_error_lists_offending_fields
    (s : salt) (user_id : Z) (m : gmap string json) (db : DB) :
  m <> ∅ ->
  ((exists f, f ∈ UserSchema /\ offending f m) ->
   rejected_listing UserSchema m db (route_create_user s (json_body (JObject m)) db)) /\
  ((exists f, f ∈ UserUpdateSchema /\ offending f m) ->
   rejected_listing UserUpdateSchema m db
     (route_update_user user_id (json_body (JObject m)) db)) /\
  ((exists f, f ∈ LoginSchema /\ offending f m) ->
   rejected_listing LoginSchema m db (route_login (json_body (JObject m)) db)).
Proof.
  intros Hm. unfold rejected_listing. split; [|split].
  - intros (f & Hf & Hoff).
    destruct (load_rejects _ _ _ Hf Hoff) as (messages & Hload & Hall).
    exists messages. split; [|exact Hall]. by apply route_create_user_rejects.
  - intros (f & Hf & Hoff).
    destruct (load_rejects _ _ _ Hf Hoff) as (messages & Hload & Hall).
    exists messages. split; [|exact Hall]. by apply route_update_user_rejects.
  - intros (f & Hf & Hoff).
    destruct (load_rejects _ _ _ Hf Hoff) as (messages & Hload & Hall).
    exists messages. split; [|exact Hall]. by apply route_login_rejects.
Qed.

(** C7, as amended.  [POST /login] with a non-empty JSON object whose
    password is missing or is not a string answers with a validation error,
    400, that names the password field, and the table is as it was; with a
    valid email and the empty string as password the body passes validation
    and the answer is the one [verify_login] decides: the stored hash of the
    row with that email is checked against the empty string. *)
Theorem login_password_must_be_a_string
    (m : gmap string json) (email : string) (db : DB) :
  (m <> ∅ -> (forall value, m !! "password" <> Some (JStr value)) ->
   exists messages,
     route_login (json_body (JObject m)) db =
       (db, Return (validation_error_response messages)) /\
     is_Some (messages !! "password") /\
     status_code (snd (validation_error_response messages)) = 400) /\
  (valid_email email = true ->
   load LoginSchema (login_body email "") =
     Return {[ "email" := email; "password" := "" ]} /\
   route_login (json_body (login_body email "")) db =
     match find (fun r => String.eqb (row_email r) email) (rows db) with
     | Some r =>
         if check_password_hash (row_password r) ""
         then (db, Return (login_success_response (row_id r)))
         else (db, Return invalid_credentials_response)
     | None => (db, Return invalid_credentials_response)
     end).
Proof.
  split.
  - intros Hm Hpassword.
    assert (Hf : fields_Str "password" true [] ∈ LoginSchema).
    { unfold LoginSchema. apply elem_of_cons. right. constructor. }
    assert (Hoff : offending (fields_Str "password" true []) m).
    { unfold offending. simpl.
      destruct (m !! "password") as [[| | | |value| |]|] eqn:E; try exact I.
      - exfalso. by apply (Hpassword value).
      - reflexivity. }
    destruct (load_rejects _ _ _ Hf Hoff) as (messages & Hload & Hall).
    exists messages. split; [by apply route_login_rejects|].
    split; [exact (Hall _ Hf Hoff)|reflexivity].
  - intros Hemail. split.
    + by apply load_login_body.
    + by apply route_login_valid.
Qed.

(** ** Further properties of the store *)

Lemma find_unique_id (rs : list Row) (r : Row) :
  NoDup (row_id <$> rs) -> r ∈ rs ->
  find (fun r' => Z.eqb (row_id r') (row_id r)) rs = Some r.
Proof.
  induction rs as [|x rs IH]; intros Hnodup Hr; [inversion Hr|].
  rewrite fmap_cons in Hnodup. apply NoDup_cons in Hnodup as [Hx Hnodup].
  cbn [find]. inversion Hr; subst.
  - by rewrite Z.eqb_refl.
  - destruct (Z.eqb_spec (row_id x) (row_id r)) as [E|_].
    + exfalso. apply Hx. rewrite E. by apply list_elem_of_fmap_2.
    + by apply IH.
Qed.


Lemma find_filter_other (rs : list Row) (user_id other : Z) :
  other <> user_id ->
  find (fun r => Z.eqb (row_id r) other)
    (List.filter (fun r => negb (Z.eqb (row_id r) user_id)) rs)
  = find (fun r => Z.eqb (row_id r) other) rs.
Proof.
  intros Hne. induction rs as [|x rs IH]; simpl; [reflexivity|].
  destruct (Z.eqb_spec (row_id x) user_id) as [E|_]; simpl.
  - destruct (Z.eqb_spec (row_id x) other) as [E'|_]; [congruence|exact IH].
  - by rewrite IH.
Qed.

Lemma find_filter_same (rs : list Row) (user_id : Z) :
  find (fun r => Z.eqb (row_id r) user_id)
    (List.filter (fun r => negb (Z.eqb (row_id r) user_id)) rs) = None.
Proof.
  apply find_none_iff. intros r Hr.
  apply list_elem_of_In, filter_In in Hr as [_ Hr]. by apply negb_true_iff.
Qed.


Lemma filter_no_hit (rs : list Row) (user_id : Z) :
  (forall r, r ∈ rs -> row_id r <> user_id) ->
  List.filter (fun r => negb (Z.eqb (row_id r) user_id)) rs = rs.
Proof.
  induction rs as [|x rs IH]; intros H; simpl; [reflexivity|].
  destruct (Z.eqb_spec (row_id x) user_id) as [E|_]; simpl.
  - exfalso. apply (H x); [constructor|exact E].
  - f_equal. apply IH. intros r Hr. apply H. by constructor.
Qed.


Lemma step_issued_above (o : op) (db : DB) :
  Forall (fun i => seq db < i) (snd (step o db)) /\
  StronglySorted Z.lt (snd (step o db)).
Proof.
  destruct o as [s name email password|user_id name email|user_id]; simpl.
  - rewrite create_user_eq.
    destruct (generate_password_hash s password) as [h|e];
      [|simpl; split; constructor].
    destruct (next_rowid_above db) as (Hseq & _).
    destruct (sql_insert_cases name email h db) as [-> | [-> | [_ ->]]]; simpl;
      split; repeat constructor; lia.
  - split; constructor.
  - split; constructor.
Qed.

Lemma run_issued_increasing (ops : list op) :
  forall db,
    Forall (fun i => seq db < i) (snd (run ops db)) /\
    StronglySorted Z.lt (snd (run ops db)).
Proof.
  induction ops as [|o ops IH]; intros db; simpl.
  - split; constructor.
  - destruct (step_seq o db) as [Hle Hbelow].
    destruct (step_issued_above o db) as [Habove Hsorted].
    destruct (step o db) as [db1 issued1]. simpl in *.
    destruct (IH db1) as [Habove' Hsorted'].
    destruct (run ops db1) as [db2 issued2]. simpl in *. split.
    + apply Forall_app. split; [assumption|].
      eapply Forall_impl; [exact Habove'|]. intros i Hi. simpl in Hi. lia.
    + apply StronglySorted_app_2; [|assumption|assumption].
      intros x1 x2 Hx1 Hx2.
      rewrite Forall_forall in Hbelow, Habove'.
      specialize (Hbelow x1 Hx1). specialize (Habove' x2 Hx2). simpl in *. lia.
Qed.

(** The three sample passwords are hashed and the three rows inserted. *)
Lemma init_db_eq (s1 s2 s3 : salt) :
  init_db s1 s2 s3 =
    mkDB [ mkRow 1 "John Doe" "john@example.com" (hashpw "password123" s1);
           mkRow 2 "Jane Smith" "jane@example.com" (hashpw "secret456" s2);
           mkRow 3 "Bob Johnson" "bob@example.com" (hashpw "qwerty789" s3) ] 3.
Proof. reflexivity. Qed.

Lemma init_db_wf (s1 s2 s3 : salt) : wf_db (init_db s1 s2 s3).
Proof.
  rewrite init_db_eq. split; [|split].
  - compute_done.
  - compute_done.
  - repeat constructor; simpl; lia.
Qed.

Lemma init_db_rowids_fit (s1 s2 s3 : salt) : rowids_fit (init_db s1 s2 s3).
Proof. rewrite init_db_eq. repeat constructor. Qed.

(** X1.  The table that [init_db.py] creates satisfies the invariant of the
    schema (ids unique, emails unique, every id at most the AUTOINCREMENT
    counter), and every history of [create_user], [update_user] and
    [delete_user] calls, failed ones included, keeps it. *)
Theorem store_keeps_invariant
    (s1 s2 s3 : salt) (ops : list op) (db : DB) :
  wf_db db ->
  wf_db (init_db s1 s2 s3) /\
  wf_db (fst (run ops db)) /\
  wf_db (fst (run ops (init_db s1 s2 s3))).
Proof.
  intros Hwf. split; [apply init_db_wf|]. split.
  - by apply run_wf.
  - apply run_wf, init_db_wf.
Qed.

(** X2.  Over any history of store calls from any table, the ids that
    [create_user] returns are strictly increasing in the order of the calls,
    all above the counter at the start: an id is never issued twice, also
    after its user was deleted. *)
Theorem issued_ids_strictly_increase (ops : list op) (db : DB) :
  StronglySorted Z.lt (snd (run ops db)) /\
  NoDup (snd (run ops db)) /\
  Forall (fun i => seq db < i) (snd (run ops db)).
Proof.
  destruct (run_issued_increasing ops db) as [Habove Hsorted].
  split; [assumption|]. split; [|assumption].
  induction Hsorted as [|i l Hl IH Hi]; [constructor|].
  apply NoDup_cons. split.
  - intros Hin. rewrite Forall_forall in Hi. specialize (Hi i Hin). lia.
  - apply IH. by inversion Habove.
Qed.

(** X3.  For an id of 64 bits, [delete_user] returns [True] exactly when a
    row has the id; the deleted id is then not found by [get_user_by_id],
    every other id is found as before, the AUTOINCREMENT counter stays, and
    a second [delete_user] of the same id returns [False] and changes
    nothing. *)
Theorem delete_user_removes_that_user (user_id : Z) (db : DB) :
  fits_int64 user_id = true ->
  let db' := fst (delete_user user_id db) in
  (exists deleted, delete_user user_id db = (db', Return deleted) /\
     (deleted = true <-> exists r, r ∈ rows db /\ row_id r = user_id)) /\
  get_user_by_id user_id db' = (db', Return None) /\
  (forall other, other <> user_id ->
     snd (get_user_by_id other db') = snd (get_user_by_id other db)) /\
  seq db' = seq db /\
  delete_user user_id db' = (db', Return false).
Proof.
  intros Hfits db'. subst db'. rewrite !delete_user_result, Hfits. simpl.
  split; [|split; [|split; [|split]]].
  - eexists. split; [reflexivity|]. split.
    + intros H. apply existsb_exists in H as (r & Hr & Hid).
      exists r. split; [by apply list_elem_of_In|by apply Z.eqb_eq].
    + intros (r & Hr & Hid). apply existsb_exists. exists r.
      split; [by apply list_elem_of_In|by apply Z.eqb_eq].
  - rewrite get_user_by_id_fits by assumption. simpl.
    by rewrite find_filter_same.
  - intros other Hne. unfold get_user_by_id.
    destruct (negb (fits_int64 other)); [reflexivity|]. simpl.
    by rewrite find_filter_other.
  - reflexivity.
  - f_equal.
    + f_equal. apply filter_no_hit. intros r Hr Hid.
      apply list_elem_of_In, filter_In in Hr as [_ Hr].
      apply negb_true_iff, Z.eqb_neq in Hr. contradiction.
    + f_equal. apply existsb_false_iff. intros r Hr.
      apply list_elem_of_In, filter_In in Hr as [_ Hr].
      by apply negb_true_iff.
Qed.





(** ** Further properties of [Schema.load] *)

Lemma load_raises_validation (schema : list field) (data : json) (e : exn) :
  load schema data = Raise e -> exists messages, e = ValidationError messages.
Proof.
  unfold load.
  destruct data as [| | | | | |m]; try (intros H; inversion H; eauto; fail).
  destruct (deserialize_fields schema m ∅ ∅) as [errors ret_d].
  destruct (Nat.eqb _ 0); intros H; inversion H; eauto.
Qed.

Lemma deserialize_value (f : field) (raw : option json) (v : string) :
  deserialize f raw = inr (Some v) -> raw = Some (JStr v).
Proof.
  unfold deserialize. destruct raw as [[| | | |value| |]|]; try discriminate.
  - destruct (flat_map _ (validate f)); [|discriminate].
    intros H. by inversion H.
  - destruct (required f); discriminate.
Qed.

Lemma deserialize_string (f : field) (m : gmap string json) (v : string) :
  m !! attr f = Some (JStr v) -> ~ offending f m ->
  deserialize f (m !! attr f) = inr (Some v).
Proof.
  intros Hm Hok.
  destruct (deserialize f (m !! attr f)) as [messages|[value|]] eqn:E.
  - exfalso. apply Hok, deserialize_offending. eauto.
  - apply deserialize_value in E. rewrite Hm in E. by inversion E.
  - exfalso. rewrite Hm in E. unfold deserialize in E.
    destruct (flat_map _ (validate f)); discriminate.
Qed.

(** The validated data after the loop over the fields. *)
Lemma deserialize_fields_ret (fs : list field) (m : gmap string json) :
  forall errors ret_d,
    (forall k v, ret_d !! k = Some v -> m !! k = Some (JStr v)) ->
    (forall k v, (deserialize_fields fs m errors ret_d).2 !! k = Some v ->
                 m !! k = Some (JStr v) /\
                 (is_Some (ret_d !! k) \/ exists f, f ∈ fs /\ attr f = k)) /\
    (forall k, is_Some (ret_d !! k) ->
               is_Some ((deserialize_fields fs m errors ret_d).2 !! k)) /\
    (forall f v, f ∈ fs -> deserialize f (m !! attr f) = inr (Some v) ->
                 (deserialize_fields fs m errors ret_d).2 !! attr f = Some v).
Proof.
  induction fs as [|f fs IH]; intros errors ret_d Hagree; simpl.
  - split; [|split].
    + intros k v Hk. split; [by apply Hagree|left; eauto].
    + done.
    + intros g v Hg. inversion Hg.
  - destruct (deserialize f (m !! attr f)) as [messages|[value|]] eqn:E.
    + destruct (IH (store_error errors (attr f) messages) ret_d Hagree)
        as (H1 & H2 & H3).
      split; [|split].
      * intros k v Hk. destruct (H1 k v Hk) as [Hm [Hold|(g & Hg & Hgk)]].
        -- split; [done|by left].
        -- split; [done|]. right. exists g. split; [by constructor|done].
      * exact H2.
      * intros g v Hg Hgv. apply elem_of_cons in Hg as [->|Hg].
        -- rewrite E in Hgv. discriminate.
        -- by apply H3.
    + assert (Hagree' : forall k v, <[attr f := value]> ret_d !! k = Some v ->
                                    m !! k = Some (JStr v)).
      { intros k v. rewrite lookup_insert. case_decide as Hk.
        - intros Hv. inversion Hv; subst. by apply deserialize_value in E.
        - apply Hagree. }
      destruct (IH errors (<[attr f := value]> ret_d) Hagree') as (H1 & H2 & H3).
      split; [|split].
      * intros k v Hk. destruct (H1 k v Hk) as [Hm [Hold|(g & Hg & Hgk)]].
        -- split; [done|]. rewrite lookup_insert in Hold.
           case_decide as Hkf; [|by left].
           right. exists f. split; [constructor|done].
        -- split; [done|]. right. exists g. split; [by constructor|done].
      * intros k Hk. apply H2. rewrite lookup_insert. case_decide; eauto.
      * intros g v Hg Hgv. apply elem_of_cons in Hg as [->|Hg].
        -- rewrite E in Hgv. inversion Hgv; subst.
           destruct (H2 (attr f)) as [v' Hv'].
           { rewrite lookup_insert_eq. eauto. }
           destruct (H1 _ _ Hv') as [Hm _].
           apply deserialize_value in E. rewrite E in Hm.
           inversion Hm; subst. exact Hv'.
        -- by apply H3.
    + destruct (IH errors ret_d Hagree) as (H1 & H2 & H3).
      split; [|split].
      * intros k v Hk. destruct (H1 k v Hk) as [Hm [Hold|(g & Hg & Hgk)]].
        -- split; [done|by left].
        -- split; [done|]. right. exists g. split; [by constructor|done].
      * exact H2.
      * intros g v Hg Hgv. apply elem_of_cons in Hg as [->|Hg].
        -- rewrite E in Hgv. discriminate.
        -- by apply H3.
Qed.

(** The messages under the keys that the loop over the fields left alone. *)
Lemma unknown_errors_value (errors : gmap string (list string)) (X : gset string) :
  forall k,
    (k ∈ X -> errors !! k = None ->
     set_fold (fun key errs => store_error errs key ["Unknown field."]) errors X
       !! k = Some ["Unknown field."]) /\
    (k ∉ X ->
     set_fold (fun key errs => store_error errs key ["Unknown field."]) errors X
       !! k = errors !! k).
Proof.
  apply (set_fold_ind_L
           (fun (r : gmap string (list string)) (Y : gset string) =>
              forall k,
                (k ∈ Y -> errors !! k = None -> r !! k = Some ["Unknown field."]) /\
                (k ∉ Y -> r !! k = errors !! k))).
  - intros k. split; [|done]. intros Hk. by apply elem_of_empty in Hk.
  - intros x Y r Hx IH k. unfold store_error. split.
    + intros Hk Hnone. apply elem_of_union in Hk as [Hk|Hk].
      * apply elem_of_singleton in Hk. subst k.
        rewrite lookup_insert_eq, (proj2 (IH x) Hx), Hnone. reflexivity.
      * rewrite lookup_insert_ne by (intros ->; contradiction).
        by apply IH.
    + intros Hk. rewrite not_elem_of_union, not_elem_of_singleton in Hk.
      destruct Hk as [Hkx HkY].
      rewrite lookup_insert_ne by congruence. by apply IH.
Qed.

Lemma load_object_ret (schema : list field) (m : gmap string json) :
  exists errors,
    (forall k, k ∈ dom errors <->
               (exists f, f ∈ schema /\ attr f = k /\ offending f m) \/
               (k ∈ dom m /\ k ∉ attr <$> schema)) /\
    (forall k, k ∈ dom m -> k ∉ attr <$> schema ->
               errors !! k = Some ["Unknown field."]) /\
    load schema (JObject m) =
      if Nat.eqb (size errors) 0
      then Return (deserialize_fields schema m ∅ ∅).2
      else Raise (ValidationError errors).
Proof.
  unfold load.
  pose proof (deserialize_fields_errors schema m ∅ ∅) as Hfields.
  destruct (deserialize_fields schema m ∅ ∅) as [errors ret_d]. simpl in *.
  eexists. split; [|split; [|reflexivity]].
  - intros k. rewrite unknown_errors_dom, Hfields.
    rewrite dom_empty_L, elem_of_empty, elem_of_difference, elem_of_list_to_set.
    tauto.
  - intros k Hk Hattr.
    apply (proj1 (unknown_errors_value errors _ k)).
    + apply elem_of_difference. by rewrite elem_of_list_to_set.
    + apply not_elem_of_dom. rewrite Hfields, dom_empty_L, elem_of_empty.
      intros [[]|(f & Hf & Hfk & _)]. apply Hattr. rewrite <- Hfk.
      by apply list_elem_of_fmap_2.
Qed.

(** What a successful load says about the body and the validated data. *)
Lemma load_Return_inv (schema : list field) (m : gmap string json)
    (vd : gmap string string) :
  load schema (JObject m) = Return vd ->
  (forall f, f ∈ schema -> ~ offending f m) /\
  (forall k, k ∈ dom m -> k ∈ attr <$> schema) /\
  (forall k v, vd !! k = Some v <->
               k ∈ attr <$> schema /\ m !! k = Some (JStr v)).
Proof.
  destruct (load_object_ret schema m) as (errors & Hdom & _ & Hload).
  rewrite Hload. intros Hvd.
  destruct (Nat.eqb_spec (size errors) 0) as [E|_]; [|discriminate].
  apply map_size_empty_iff in E. subst errors.
  inversion Hvd as [Hret]. clear Hvd.
  assert (Hnone : forall k, ~ ((exists f, f ∈ schema /\ attr f = k /\ offending f m)
                               \/ (k ∈ dom m /\ k ∉ attr <$> schema))).
  { intros k Hk. apply Hdom in Hk. rewrite dom_empty_L in Hk.
    by apply elem_of_empty in Hk. }
  assert (Hok : forall f, f ∈ schema -> ~ offending f m).
  { intros f Hf Hoff. apply (Hnone (attr f)). left. by exists f. }
  assert (Hkeys : forall k, k ∈ dom m -> k ∈ attr <$> schema).
  { intros k Hk.
    destruct (decide (k ∈ attr <$> schema)) as [|Hout]; [done|].
    exfalso. apply (Hnone k). by right. }
  split; [exact Hok|]. split; [exact Hkeys|].
  destruct (deserialize_fields_ret schema m ∅ ∅) as (H1 & _ & H3).
  { intros k v Hk. rewrite lookup_empty in Hk. discriminate. }
  intros k v. split.
  - intros Hk. destruct (H1 k v Hk) as [Hm [Hold|(f & Hf & Hfk)]].
    + rewrite lookup_empty in Hold. by destruct Hold.
    + split; [|done]. rewrite <- Hfk. by apply list_elem_of_fmap_2.
  - intros [Hk Hm]. apply list_elem_of_fmap in Hk as (f & -> & Hf).
    apply H3; [done|]. apply deserialize_string; [done|by apply Hok].
Qed.

(** A successful load has a value for every required field. *)
Lemma load_required_fields (schema : list field) (data : json)
    (vd : gmap string string) (f : field) :
  load schema data = Return vd -> f ∈ schema -> required f = true ->
  exists v, vd !! attr f = Some v.
Proof.
  intros Hload Hf Hreq.
  destruct data as [| | | | | |m]; try discriminate Hload.
  destruct (load_Return_inv _ _ _ Hload) as (Hok & _ & Hvd).
  specialize (Hok f Hf). unfold offending in Hok.
  destruct (m !! attr f) as [[| | | |v| |]|] eqn:E;
    try (exfalso; apply Hok; exact I).
  - exists v. apply Hvd. split; [by apply list_elem_of_fmap_2|done].
  - contradiction.
Qed.

(** X7.  [Schema.load] on a JSON object succeeds exactly when no field of
    the schema is offending and the object has no key outside the schema;
    the validated data then holds, for every key of the schema that the
    object has, the object's string under that key, and nothing else. When
    it fails it raises a [ValidationError] whose messages are not empty and
    have an entry exactly for the offending fields and the keys outside the
    schema. *)
Theorem load_validates_exactly (schema : list field) (m : gmap string json) :
  (forall vd,
      load schema (JObject m) = Return vd ->
      (forall f, f ∈ schema -> ~ offending f m) /\
      (forall k, k ∈ dom m -> k ∈ attr <$> schema) /\
      (forall k v, vd !! k = Some v <->
                   k ∈ attr <$> schema /\ m !! k = Some (JStr v))) /\
  (forall e,
      load schema (JObject m) = Raise e ->
      exists messages,
        e = ValidationError messages /\ messages <> ∅ /\
        (forall k, is_Some (messages !! k) <->
                   (exists f, f ∈ schema /\ attr f = k /\ offending f m) \/
                   (k ∈ dom m /\ k ∉ attr <$> schema))) /\
  ((forall f, f ∈ schema -> ~ offending f m) ->
   (forall k, k ∈ dom m -> k ∈ attr <$> schema) ->
   exists vd, load schema (JObject m) = Return vd).
Proof.
  split; [intros vd; apply load_Return_inv|].
  destruct (load_object_ret schema m) as (errors & Hdom & _ & Hload).
  rewrite Hload. split.
  - intros e He.
    destruct (Nat.eqb_spec (size errors) 0) as [_|E]; [discriminate|].
    inversion He; subst. exists errors. split; [reflexivity|]. split.
    + by apply map_size_non_empty_iff.
    + intros k. rewrite <- elem_of_dom. apply Hdom.
  - intros Hok Hkeys.
    destruct (Nat.eqb_spec (size errors) 0) as [_|E]; [eauto|].
    exfalso. apply map_size_non_empty_iff in E.
    apply map_choose in E as (k & msgs & Hk).
    assert (Hin : k ∈ dom errors) by (apply elem_of_dom; eauto).
    apply Hdom in Hin as [(f & Hf & _ & Hoff)|[Hk1 Hk2]].
    + by apply (Hok f).
    + by apply Hk2, Hkeys.
Qed.

Lemma load_unknown_key (schema : list field) (m : gmap string json) (key : string) :
  is_Some (m !! key) -> key ∉ attr <$> schema ->
  exists messages,
    load schema (JObject m) = Raise (ValidationError messages) /\
    messages !! key = Some ["Unknown field."].
Proof.
  intros Hkey Hout.
  destruct (load_object_ret schema m) as (errors & _ & Hunknown & ->).
  assert (Hmsg : errors !! key = Some ["Unknown field."]).
  { apply Hunknown; [by apply elem_of_dom|done]. }
  exists errors. split; [|exact Hmsg].
  destruct (Nat.eqb_spec (size errors) 0) as [E|_]; [|reflexivity].
  apply map_size_empty_iff in E. rewrite E, lookup_empty in Hmsg. discriminate.
Qed.

Lemma is_Some_non_empty (m : gmap string json) (key : string) :
  is_Some (m !! key) -> m <> ∅.
Proof. intros [x Hx] ->. rewrite lookup_empty in Hx. discriminate. Qed.

(** X8.  A body with a key that the schema of the handler does not
    declare, such as [id] on [POST /users], is answered with a validation
    error, 400, whose messages hold exactly Unknown field. under that key,
    and the table is as it was. *)
Theorem undeclared_key_is_rejected
    (s : salt) (user_id : Z) (m : gmap string json) (key : string) (db : DB) :
  is_Some (m !! key) ->
  (key ∉ attr <$> UserSchema ->
   exists messages,
     route_create_user s (json_body (JObject m)) db =
       (db, Return (validation_error_response messages)) /\
     messages !! key = Some ["Unknown field."]) /\
  (key ∉ attr <$> UserUpdateSchema ->
   exists messages,
     route_update_user user_id (json_body (JObject m)) db =
       (db, Return (validation_error_response messages)) /\
     messages !! key = Some ["Unknown field."]) /\
  (key ∉ attr <$> LoginSchema ->
   exists messages,
     route_login (json_body (JObject m)) db =
       (db, Return (validation_error_response messages)) /\
     messages !! key = Some ["Unknown field."]) /\
  "id" ∉ attr <$> UserSchema.
Proof.
  intros Hkey. pose proof (is_Some_non_empty m key Hkey) as Hm.
  split; [|split; [|split]].
  - intros Hout.
    destruct (load_unknown_key _ _ _ Hkey Hout) as (messages & Hload & Hmsg).
    exists messages. split; [by apply route_create_user_rejects|done].
  - intros Hout.
    destruct (load_unknown_key _ _ _ Hkey Hout) as (messages & Hload & Hmsg).
    exists messages. split; [by apply route_update_user_rejects|done].
  - intros Hout.
    destruct (load_unknown_key _ _ _ Hkey Hout) as (messages & Hload & Hmsg).
    exists messages. split; [by apply route_login_rejects|done].
  - simpl. intros H.
    repeat (apply elem_of_cons in H as [H|H]; [discriminate H|]).
    inversion H.
Qed.

(** ** What every handler answers *)

Lemma route_get_all_users_answer (db : DB) :
  route_get_all_users db =
    (db, Return (JList (JObject <$> map dict_id_name_email (rows db)), OK)).
Proof. reflexivity. Qed.

Lemma route_get_user_answer (user_id : Z) (db : DB) :
  route_get_user user_id db =
    if fits_int64 user_id
    then (db, Return match find (fun r => Z.eqb (row_id r) user_id) (rows db) with
                     | Some r => (JObject (dict_id_name_email r), OK)
                     | None => (error_body "User not found", NOT_FOUND)
                     end)
    else (db, Raise OverflowError).
Proof.
  unfold route_get_user, try_except, bind, get_user_by_id.
  destruct (fits_int64 user_id); [|reflexivity]. simpl.
  by destruct (find _ (rows db)).
Qed.

Lemma route_search_users_answer (name : option string) (db : DB) :
  route_search_users name db =
    (db, Return match name with
                | None | Some "" =>
                    (error_body "Please provide a name to search", BAD_REQUEST)
                | Some name =>
                    match select_where_name_like ("%" +:+ name +:+ "%") (rows db)
                    with
                    | Some hits =>
                        (JList (JObject <$> map dict_id_name_email hits), OK)
                    | None => database_error_response
                    end
                end).
Proof.
  destruct name as [[|c name]|]; try reflexivity.
  unfold route_search_users, try_except, bind, search_users.
  by destruct (select_where_name_like _ (rows db)).
Qed.

Lemma route_delete_user_answer (user_id : Z) (db : DB) :
  route_delete_user user_id db =
    if fits_int64 user_id
    then (fst (delete_user user_id db),
          Return (if existsb (fun r => Z.eqb (row_id r) user_id) (rows db)
                  then (JObject {[ "message" := JStr "User deleted successfully" ]},
                        OK)
                  else (error_body "User not found", NOT_FOUND)))
    else (db, Raise OverflowError).
Proof.
  unfold route_delete_user, try_except, bind. rewrite delete_user_result.
  destruct (fits_int64 user_id); [|reflexivity]. simpl.
  by destruct (existsb _ (rows db)).
Qed.

Lemma delete_user_not_found (user_id : Z) (db : DB) :
  existsb (fun r => Z.eqb (row_id r) user_id) (rows db) = false ->
  fst (delete_user user_id db) = db.
Proof.
  intros E. rewrite delete_user_result.
  destruct (negb (fits_int64 user_id)); [reflexivity|]. simpl.
  rewrite filter_no_hit; [by destruct db|].
  intros r Hr. apply Z.eqb_neq. by apply (proj1 (existsb_false_iff _ _) E).
Qed.

(** What a body that [UserSchema] loads holds. *)
Lemma load_UserSchema_inv (data : json) (vd : gmap string string) :
  load UserSchema data = Return vd ->
  exists m name email password,
    data = JObject m /\
    vd !! "name" = Some name /\ vd !! "email" = Some email /\
    vd !! "password" = Some password /\
    m !! "password" = Some (JStr password) /\
    (6 <= String.length password)%nat.
Proof.
  intros Hload.
  destruct (load_required_fields _ _ _ (fields_Str "name" true [Length 1]) Hload)
    as [name Hname]; [repeat constructor|reflexivity|].
  destruct (load_required_fields _ _ _ (fields_Email "email" true) Hload)
    as [email Hemail]; [repeat constructor|reflexivity|].
  destruct (load_required_fields _ _ _ (fields_Str "password" true [Length 6]) Hload)
    as [password Hpassword]; [repeat constructor|reflexivity|].
  cbn [attr fields_Str fields_Email] in Hname, Hemail, Hpassword.
  destruct data as [| | | | | |m]; try discriminate Hload.
  destruct (load_Return_inv _ _ _ Hload) as (Hok & _ & Hvd).
  exists m, name, email, password.
  apply Hvd in Hpassword as Hbody. destruct Hbody as [_ Hbody].
  repeat (split; [done|]).
  assert (Hf : fields_Str "password" true [Length 6] ∈ UserSchema)
    by repeat constructor.
  specialize (Hok _ Hf). unfold offending in Hok.
  cbn [attr fields_Str validate] in Hok. rewrite Hbody in Hok.
  destruct (Nat.leb_spec 6 (String.length password)) as [Hlen|Hlen]; [done|].
  exfalso. apply Hok. exists (Length 6). split; [constructor|].
  unfold passes. apply Nat.leb_gt. exact Hlen.
Qed.

(** A password of six characters or more is refused for its length only. *)
Lemma bcrypt_refuses_long (password : string) :
  (6 <= String.length password)%nat -> bcrypt_accepts password = false ->
  72 < utf8_len password.
Proof.
  unfold bcrypt_accepts. intros Hlen H.
  destruct password as [|c password]; [simpl in Hlen; lia|].
  simpl negb in H. rewrite andb_true_l in H. by apply Z.leb_gt in H.
Qed.

Lemma route_create_user_answers (s : salt) (req : request_body) (db : DB) :
  exists db' result,
    route_create_user s req db = (db', result) /\
    match result with
    | Return (_, status) =>
        status = CREATED \/
        (db' = db /\
         (status = BAD_REQUEST \/ status = CONFLICT \/
          (status = INTERNAL_SERVER_ERROR /\ max_int64 < next_rowid db)))
    | Raise e =>
        db' = db /\
        ((e = UnsupportedMediaType /\ req = not_json) \/
         (e = BadRequest /\ req = malformed_json) \/
         (exists msg m password,
             e = ValueError msg /\ req = json_body (JObject m) /\
             m !! "password" = Some (JStr password) /\
             72 < utf8_len password))
    end.
Proof.
  destruct req as [data| |];
    [|eexists _, _; split; [reflexivity|]; simpl; auto..].
  unfold route_create_user, try_except, bind, lift, get_json, ret.
  destruct (truthy data); cbv beta iota delta [negb].
  2: { eexists _, _. split; [reflexivity|]. simpl. right. auto. }
  destruct (load UserSchema data) as [vd|e] eqn:Hload.
  - destruct (load_UserSchema_inv _ _ Hload)
      as (m & name & email & password & -> & Hname & Hemail & Hpassword
          & Hbody & Hlen).
    unfold getitem. rewrite Hname, Hemail, Hpassword. unfold ret.
    destruct (create_user_cases s name email password db)
      as [[Hrefused [msg ->]] | [(_ & Hfull & ->) | [[_ ->] | (_ & _ & ->)]]].
    + eexists _, _. split; [reflexivity|]. simpl. split; [reflexivity|].
      right; right. exists msg, m, password.
      repeat (split; [done|]). by apply bcrypt_refuses_long.
    + eexists _, _. split; [reflexivity|]. simpl. right. auto.
    + eexists _, _. split; [reflexivity|]. simpl. right. auto.
    + eexists _, _. split; [reflexivity|]. simpl. left. reflexivity.
  - destruct (load_raises_validation _ _ _ Hload) as [messages ->].
    eexists _, _. split; [reflexivity|]. simpl. right. auto.
Qed.

Lemma route_update_user_answers (user_id : Z) (req : request_body) (db : DB) :
  exists db' result,
    route_update_user user_id req db = (db', result) /\
    match result with
    | Return (_, status) =>
        status = OK \/
        (db' = db /\
         (status = BAD_REQUEST \/ status = NOT_FOUND \/ status = CONFLICT))
    | Raise e =>
        db' = db /\
        ((e = UnsupportedMediaType /\ req = not_json) \/
         (e = BadRequest /\ req = malformed_json) \/
         (e = OverflowError /\ fits_int64 user_id = false))
    end.
Proof.
  destruct req as [data| |];
    [|eexists _, _; split; [reflexivity|]; simpl; auto..].
  unfold route_update_user, try_except, bind, lift, get_json, ret.
  destruct (truthy data); cbv beta iota delta [negb].
  2: { eexists _, _. split; [reflexivity|]. simpl. right. auto. }
  destruct (load UserUpdateSchema data) as [vd|e] eqn:Hload.
  - destruct (load_required_fields _ _ _ (fields_Str "name" true [Length 1]) Hload)
      as [name Hname]; [repeat constructor|reflexivity|].
    destruct (load_required_fields _ _ _ (fields_Email "email" true) Hload)
      as [email Hemail]; [repeat constructor|reflexivity|].
    cbn [attr fields_Str fields_Email] in Hname, Hemail.
    unfold getitem. rewrite Hname, Hemail. unfold ret.
    rewrite update_user_result.
    destruct (fits_int64 user_id) eqn:Hfits; simpl negb; cbv iota.
    2: { eexists _, _. split; [reflexivity|]. simpl. auto. }
    remember (existsb (fun r => Z.eqb (row_id r) user_id) (rows db)) as hit
      eqn:Ehit.
    remember (existsb _ (rows db)) as clash eqn:Eclash in |- *.
    destruct hit; [destruct clash|].
    + eexists _, _. split; [reflexivity|]. simpl. right. auto.
    + eexists _, _. split; [reflexivity|]. simpl. left. reflexivity.
    + eexists _, _. split; [reflexivity|]. simpl. right. split; [|auto].
      rewrite map_no_hit; [by destruct db|].
      intros r Hr. apply Z.eqb_neq.
      by apply (proj1 (existsb_false_iff _ _) (eq_sym Ehit)).
  - destruct (load_raises_validation _ _ _ Hload) as [messages ->].
    eexists _, _. split; [reflexivity|]. simpl. right. auto.
Qed.

Lemma route_login_answers (req : request_body) (db : DB) :
  exists result,
    route_login req db = (db, result) /\
    match result with
    | Return (_, status) =>
        status = OK \/ status = BAD_REQUEST \/ status = UNAUTHORIZED
    | Raise e =>
        (e = UnsupportedMediaType /\ req = not_json) \/
        (e = BadRequest /\ req = malformed_json)
    end.
Proof.
  destruct req as [data| |];
    [|eexists; split; [reflexivity|]; simpl; auto..].
  unfold route_login, try_except, bind, lift, get_json, ret.
  destruct (truthy data); cbv beta iota delta [negb].
  2: { eexists. split; [reflexivity|]. simpl. auto. }
  destruct (load LoginSchema data) as [vd|e] eqn:Hload.
  - destruct (load_required_fields _ _ _ (fields_Email "email" true) Hload)
      as [email Hemail]; [repeat constructor|reflexivity|].
    destruct (load_required_fields _ _ _ (fields_Str "password" true []) Hload)
      as [password Hpassword]; [repeat constructor|reflexivity|].
    cbn [attr fields_Str fields_Email] in Hemail, Hpassword.
    unfold getitem. rewrite Hemail, Hpassword. unfold ret.
    unfold verify_login.
    destruct (find _ (rows db)) as [r|].
    + destruct (check_password_hash _ _).
      * eexists. split; [reflexivity|]. simpl. auto.
      * eexists. split; [reflexivity|]. simpl. auto.
    + eexists. split; [reflexivity|]. simpl. auto.
  - destruct (load_raises_validation _ _ _ Hload) as [messages ->].
    eexists. split; [reflexivity|]. simpl. auto.
Qed.


(** X10.  [GET /users], [GET /user/<id>], [GET /search] and [POST /login]
    leave the table as it was, whatever they answer or let escape;
    [POST /users] changes it only when it answers 201, and [PUT /user/<id>]
    and [DELETE /user/<id>] only when they answer 200: not with any other
    answer, and not when an exception escapes. *)
Theorem only_successful_writes_change_the_table
    (s : salt) (user_id : Z) (req : request_body) (name : option string)
    (db : DB) :
  fst (route_get_all_users db) = db /\
  fst (route_get_user user_id db) = db /\
  fst (route_search_users name db) = db /\
  fst (route_login req db) = db /\
  (forall db' body status,
      route_create_user s req db = (db', Return (body, status)) ->
      status <> CREATED -> db' = db) /\
  (forall db' body status,
      route_update_user user_id req db = (db', Return (body, status)) ->
      status <> OK -> db' = db) /\
  (forall db' body status,
      route_delete_user user_id db = (db', Return (body, status)) ->
      status <> OK -> db' = db) /\
  (forall db' e, route_create_user s req db = (db', Raise e) -> db' = db) /\
  (forall db' e, route_update_user user_id req db = (db', Raise e) -> db' = db) /\
  (forall db' e, route_delete_user user_id db = (db', Raise e) -> db' = db).
Proof.
  split; [reflexivity|].
  split; [rewrite route_get_user_answer; by destruct (fits_int64 user_id)|].
  split; [by rewrite route_search_users_answer|].
  split; [by destruct (route_login_answers req db) as (result & -> & _)|].
  destruct (route_create_user_answers s req db)
    as (dbc & resc & Hcreate & Hcreate_cases).
  destruct (route_update_user_answers user_id req db)
    as (dbu & resu & Hupdate & Hupdate_cases).
  split; [|split; [|split; [|split; [|split]]]].
  - intros db' body status Hroute Hstatus.
    rewrite Hcreate in Hroute. inversion Hroute; subst.
    by destruct Hcreate_cases as [?|[? _]].
  - intros db' body status Hroute Hstatus.
    rewrite Hupdate in Hroute. inversion Hroute; subst.
    by destruct Hupdate_cases as [?|[? _]].
  - intros db' body status Hroute Hstatus.
    rewrite route_delete_user_answer in Hroute.
    destruct (fits_int64 user_id); [|discriminate].
    destruct (existsb _ (rows db)) eqn:E; inversion Hroute; subst.
    + contradiction.
    + by apply delete_user_not_found.
  - intros db' e Hroute. rewrite Hcreate in Hroute. inversion Hroute; subst.
    by destruct Hcreate_cases.
  - intros db' e Hroute. rewrite Hupdate in Hroute. inversion Hroute; subst.
    by destruct Hupdate_cases.
  - intros db' e Hroute. rewrite route_delete_user_answer in Hroute.
    destruct (fits_int64 user_id); inversion Hroute. reflexivity.
Qed.


(** X12.  [DELETE /user/<id>] of the id of a row, a 64-bit integer, answers
    200; after it [GET /user/<id>] and a second [DELETE /user/<id>] answer
    404 with error User not found, and every row with another id is still in
    the table. *)
Theorem delete_user_then_not_found (db : DB) (r : Row) :
  r ∈ rows db -> fits_int64 (row_id r) = true ->
  exists db',
    route_delete_user (row_id r) db =
      (db', Return (JObject {[ "message" := JStr "User deleted successfully" ]},
                    OK)) /\
    route_get_user (row_id r) db' =
      (db', Return (error_body "User not found", NOT_FOUND)) /\
    route_delete_user (row_id r) db' =
      (db', Return (error_body "User not found", NOT_FOUND)) /\
    (forall r', r' ∈ rows db -> row_id r' <> row_id r -> r' ∈ rows db').
Proof.
  intros Hr Hfits. exists (fst (delete_user (row_id r) db)).
  assert (Hdelete : fst (delete_user (row_id r) db) =
            mkDB (List.filter (fun r' => negb (Z.eqb (row_id r') (row_id r)))
                    (rows db)) (seq db)).
  { by rewrite delete_user_result, Hfits. }
  assert (Hgone : existsb (fun r' => Z.eqb (row_id r') (row_id r))
                    (rows (fst (delete_user (row_id r) db))) = false).
  { rewrite Hdelete. simpl. apply existsb_false_iff. intros r' Hr'.
    apply list_elem_of_In, filter_In in Hr' as [_ Hr'].
    by apply negb_true_iff. }
  split; [|split; [|split]].
  - rewrite route_delete_user_answer, Hfits.
    replace (existsb _ (rows db)) with true; [reflexivity|].
    symmetry. apply existsb_exists. exists r.
    split; [by apply list_elem_of_In|apply Z.eqb_refl].
  - rewrite route_get_user_answer, Hfits, Hdelete. simpl.
    by rewrite find_filter_same.
  - rewrite route_delete_user_answer, Hfits, Hgone.
    by rewrite delete_user_not_found.
  - intros r' Hr' Hne. rewrite Hdelete. simpl.
    apply list_elem_of_In, filter_In. split; [by apply list_elem_of_In|].
    by apply negb_true_iff, Z.eqb_neq.
Qed.

(** X13.  On a well-formed table, [GET /user/<id>] with the id of a row, a
    64-bit integer, answers 200 with the id, name and email of that very
    row, which is also one of the records of [GET /users]; with an id of 64
    bits that no row has it answers 404 with error User not found; and with
    an id beyond 64 bits it lets [OverflowError] escape. *)
Theorem get_user_found_or_404 (db : DB) (r : Row) :
  wf_db db -> r ∈ rows db -> fits_int64 (row_id r) = true ->
  route_get_user (row_id r) db =
    (db, Return (JObject {[ "id" := JInt (row_id r); "name" := JStr (row_name r);
                            "email" := JStr (row_email r) ]}, OK)) /\
  (exists users,
      route_get_all_users db = (db, Return (JList (JObject <$> users), OK)) /\
      dict_id_name_email r ∈ users) /\
  (forall other,
      fits_int64 other = true ->
      (forall r', r' ∈ rows db -> row_id r' <> other) ->
      route_get_user other db =
        (db, Return (error_body "User not found", NOT_FOUND))) /\
  (forall other,
      fits_int64 other = false ->
      route_get_user other db = (db, Raise OverflowError)).
Proof.
  intros (Hids & _ & _) Hr Hfits. split; [|split; [|split]].
  - rewrite route_get_user_answer, Hfits. by rewrite find_unique_id.
  - eexists. split; [apply route_get_all_users_answer|].
    by apply (list_elem_of_fmap_2 dict_id_name_email).
  - intros other Hother Hnone. rewrite route_get_user_answer, Hother.
    replace (find _ (rows db)) with (@None Row); [reflexivity|].
    symmetry. apply find_none_iff. intros r' Hr'.
    apply Z.eqb_neq. by apply Hnone.
  - intros other Hother. by rewrite route_get_user_answer, Hother.
Qed.

(** ** Further properties of the search *)

Lemma sqlite3Tolower_idem (c : ascii) :
  sqlite3Tolower (sqlite3Tolower c) = sqlite3Tolower c.
Proof. destruct c as [[] [] [] [] [] [] [] []]; reflexivity. Qed.

Lemma lower_percent (c : ascii) : is_percent (sqlite3Tolower c) = is_percent c.
Proof. destruct c as [[] [] [] [] [] [] [] []]; reflexivity. Qed.

Lemma lower_underscore (c : ascii) :
  is_underscore (sqlite3Tolower c) = is_underscore c.
Proof. destruct c as [[] [] [] [] [] [] [] []]; reflexivity. Qed.

Lemma nocase_lower_l (c d : ascii) :
  nocase_eqb (sqlite3Tolower c) d = nocase_eqb c d.
Proof. unfold nocase_eqb. by rewrite sqlite3Tolower_idem. Qed.

Lemma nocase_lower_r (c d : ascii) :
  nocase_eqb c (sqlite3Tolower d) = nocase_eqb c d.
Proof. unfold nocase_eqb. by rewrite sqlite3Tolower_idem. Qed.

Lemma like_cons (c : ascii) (p t : string) :
  like (String c p) t =
    if is_percent c then
      like p t || match t with
                  | EmptyString => false
                  | String _ t' => like (String c p) t'
                  end
    else if is_underscore c then
      match t with
      | EmptyString => false
      | String _ t' => like p t'
      end
    else
      match t with
      | EmptyString => false
      | String d t' => nocase_eqb c d && like p t'
      end.
Proof.
  destruct t; simpl; destruct (is_percent c), (is_underscore c); reflexivity.
Qed.

Lemma like_lower_pattern (p : string) :
  forall t, like (lower p) t = like p t.
Proof.
  induction p as [|c p IH]; intros t; [reflexivity|]. cbn [lower].
  induction t as [|d t IHt];
    rewrite (like_cons (sqlite3Tolower c)), (like_cons c),
      lower_percent, lower_underscore, ?nocase_lower_l, ?IH, ?IHt;
    reflexivity.
Qed.

Lemma like_lower_text (p : string) :
  forall t, like p (lower t) = like p t.
Proof.
  induction p as [|c p IH]; intros t; [by destruct t|].
  induction t as [|d t IHt]; [reflexivity|].
  rewrite (like_cons c p (lower (String d t))), (like_cons c p (String d t)).
  rewrite IH. cbn [lower]. by rewrite IH, IHt, nocase_lower_r.
Qed.

Lemma lower_app (s t : string) : lower (s +:+ t) = lower s +:+ lower t.
Proof.
  induction s as [|c s IH]; [reflexivity|].
  change (String (sqlite3Tolower c) (lower (s +:+ t))
          = String (sqlite3Tolower c) (lower s +:+ lower t)).
  by rewrite IH.
Qed.

Lemma lower_is_nul (c : ascii) : is_nul (sqlite3Tolower c) = is_nul c.
Proof. destruct c as [[] [] [] [] [] [] [] []]; reflexivity. Qed.

Lemma lower_one_byte (c : ascii) :
  Nat.ltb (nat_of_ascii (sqlite3Tolower c)) 128 = Nat.ltb (nat_of_ascii c) 128.
Proof. destruct c as [[] [] [] [] [] [] [] []]; reflexivity. Qed.

Lemma utf8_len_lower (s : string) : utf8_len (lower s) = utf8_len s.
Proof.
  induction s as [|c s IH]; [reflexivity|].
  cbn [lower utf8_len]. by rewrite lower_one_byte, IH.
Qed.

Lemma c_str_lower (s : string) : c_str (lower s) = lower (c_str s).
Proof.
  induction s as [|c s IH]; [reflexivity|].
  cbn [lower c_str]. rewrite lower_is_nul.
  destruct (is_nul c); [reflexivity|]. cbn [lower]. by rewrite IH.
Qed.

Lemma likeFunc_lower_pattern (pattern text : string) :
  likeFunc (lower pattern) text = likeFunc pattern text.
Proof.
  unfold likeFunc.
  by rewrite utf8_len_lower, c_str_lower, like_lower_pattern.
Qed.

Lemma likeFunc_lower_text (pattern text : string) :
  likeFunc pattern (lower text) = likeFunc pattern text.
Proof. unfold likeFunc. by rewrite c_str_lower, like_lower_text. Qed.

Lemma select_where_name_like_lower (pattern : string) (rs : list Row) :
  select_where_name_like (lower pattern) rs = select_where_name_like pattern rs.
Proof.
  induction rs as [|r rs IH]; [reflexivity|].
  cbn [select_where_name_like]. by rewrite likeFunc_lower_pattern, IH.
Qed.

(** X14.  The search does not see the case of ASCII letters, neither in the
    search string nor in the names: [search_users] returns or raises the
    same for a search string and for that string in small letters, and LIKE
    gives the same for a pattern or a name and for it in small letters, in
    the comparison and as SQLite evaluates it on a row. *)
Theorem search_users_ignores_ascii_case (name : string) (db : DB) :
  search_users (lower name) db = search_users name db /\
  (forall pattern text, like (lower pattern) text = like pattern text) /\
  (forall pattern text, like pattern (lower text) = like pattern text) /\
  (forall pattern text, likeFunc (lower pattern) text = likeFunc pattern text) /\
  (forall pattern text, likeFunc pattern (lower text) = likeFunc pattern text).
Proof.
  split; [|split; [|split; [|split]]].
  - unfold search_users.
    rewrite <- (select_where_name_like_lower ("%" +:+ name +:+ "%")).
    by rewrite !lower_app.
  - intros pattern text. apply like_lower_pattern.
  - intros pattern text. apply like_lower_text.
  - intros pattern text. apply likeFunc_lower_pattern.
  - intros pattern text. apply likeFunc_lower_text.
Qed.

(** X15.  For a search string with no [%], no [_] and no NUL, whose pattern
    has at most 50000 bytes, [search_users] returns the records of exactly
    the rows whose name, read up to its first NUL, contains the string up to
    the case of ASCII letters, in the order of the table; for the empty
    string these are all rows. *)
Theorem search_users_finds_substrings (name : string) (db : DB) :
  wildcard_free name = true ->
  nul_free name = true ->
  utf8_len ("%" +:+ name +:+ "%") <= SQLITE_MAX_LIKE_PATTERN_LENGTH ->
  search_users name db =
    (db, Return (map dict_id_name_email
                   (List.filter
                      (fun r => contains_nocase name (c_str (row_name r)))
                      (rows db)))) /\
  (forall t, contains_nocase name t = true <-> occurs_nocase name t) /\
  (forall r, r ∈ rows db ->
     (likeFunc ("%" +:+ name +:+ "%") (row_name r) = Some true <->
      occurs_nocase name (c_str (row_name r)))) /\
  (forall r, r ∈ rows db -> nul_free (row_name r) = true ->
     (likeFunc ("%" +:+ name +:+ "%") (row_name r) = Some true <->
      occurs_nocase name (row_name r))) /\
  (name = "" -> search_users name db = get_all_users db).
Proof.
  intros Hfree Hnul Hshort.
  assert (Hlike : forall t,
             likeFunc ("%" +:+ name +:+ "%") t = Some true <->
             occurs_nocase name (c_str t)).
  { intros t. unfold likeFunc.
    destruct (Z.ltb_spec SQLITE_MAX_LIKE_PATTERN_LENGTH
                (utf8_len ("%" +:+ name +:+ "%"))); [lia|].
    rewrite c_str_pattern, like_is_contains_nocase by assumption.
    rewrite <- contains_nocase_spec. split; [by intros [= ->]|by intros ->]. }
  split; [|split; [|split; [|split]]].
  - by apply search_users_wildcard_free.
  - intros t. apply contains_nocase_spec.
  - intros r _. apply Hlike.
  - intros r _ Hr. rewrite Hlike. by rewrite c_str_nul_free.
  - intros ->. apply search_users_empty_string.
Qed.

Lemma sublist_map_filter {A B} (f : A -> B) (p : A -> bool) (l : list A) :
  map f (List.filter p l) `sublist_of` map f l.
Proof.
  induction l as [|x l IH]; simpl; [constructor|].
  destruct (p x); simpl; by constructor.
Qed.

(** X16.  [GET /search] without a name, or with the empty name, answers 400
    with error Please provide a name to search.  With any other name, when
    the pattern has at most 50000 bytes or the table is empty, it answers
    200 with what [search_users] returns, which is a sublist of what
    [get_all_users] returns: records of the table, in the order of the
    table, none invented; when the pattern is longer and the table has a
    row, [search_users] raises [OperationalError] and the answer is 500 with
    error Database error. *)
Theorem search_route_lists_a_sublist (name : string) (db : DB) :
  route_search_users None db =
    (db, Return (error_body "Please provide a name to search", BAD_REQUEST)) /\
  route_search_users (Some "") db = route_search_users None db /\
  (name <> "" ->
   utf8_len ("%" +:+ name +:+ "%") <= SQLITE_MAX_LIKE_PATTERN_LENGTH
   \/ rows db = [] ->
   exists users everyone,
     search_users name db = (db, Return users) /\
     get_all_users db = (db, Return everyone) /\
     users `sublist_of` everyone /\
     route_search_users (Some name) db =
       (db, Return (JList (JObject <$> users), OK))) /\
  (name <> "" ->
   SQLITE_MAX_LIKE_PATTERN_LENGTH < utf8_len ("%" +:+ name +:+ "%") ->
   rows db <> [] ->
   search_users name db =
     (db, Raise (OperationalError "LIKE or GLOB pattern too complex")) /\
   route_search_users (Some name) db =
     (db, Return (error_body "Database error", INTERNAL_SERVER_ERROR))).
Proof.
  split; [reflexivity|]. split; [reflexivity|]. split.
  - intros Hname Hok.
    assert (Hselect : exists hits,
               select_where_name_like ("%" +:+ name +:+ "%") (rows db)
               = Some hits).
    { destruct Hok as [Hshort|Hrows].
      - rewrite select_where_name_like_short by assumption. eauto.
      - rewrite Hrows. simpl. eauto. }
    destruct Hselect as [hits Hselect].
    pose proof (select_where_name_like_hits _ _ _ Hselect) as Hhits.
    eexists _, _. split; [|split; [reflexivity|split]].
    + unfold search_users. rewrite Hselect. reflexivity.
    + rewrite Hhits. apply sublist_map_filter.
    + rewrite route_search_users_answer, Hselect. by destruct name.
  - intros Hname Hlong Hrows.
    pose proof (select_where_name_like_long _ _ Hlong Hrows) as Hselect.
    split.
    + by apply search_users_long.
    + rewrite route_search_users_answer, Hselect. by destruct name.
Qed.

End App.

(** ** The claims at concrete inputs *)

Definition demo_db : DB := init_db unit demo_hashpw tt tt tt.

Definition demo_john : Row :=
  mkRow 1 "John Doe" "john@example.com" (demo_hashpw "password123" tt).

Lemma demo_db_wf : wf_db demo_db.
Proof. apply init_db_wf. Qed.

Lemma demo_john_in_db : demo_john ∈ rows demo_db.
Proof. constructor. Qed.




(** The id that follows the largest rowid. *)
Definition demo_big_id : Z := 9223372036854775808.







Definition demo_bad_body : gmap string json :=
  {[ "name" := JStr ""; "email" := JInt 5 ]}.

Lemma demo_bad_body_non_empty : demo_bad_body <> ∅.
Proof.
  intros E. apply (f_equal (fun m : gmap string json => m !! "name")) in E.
  discriminate E.
Qed.

(** C8 at a body with an empty name, a number as email and no password. *)
Lemma validation_error_lists_offending_fields_witness :
  demo_bad_body <> ∅ /\
  rejected_listing demo_valid_email UserSchema demo_bad_body empty_db
    (route_create_user unit demo_hashpw demo_valid_email tt
       (json_body (JObject demo_bad_body)) empty_db).
Proof.
  split; [exact demo_bad_body_non_empty|].
  apply (proj1 (validation_error_lists_offending_fields unit
                  demo_hashpw demo_check_password_hash
                  demo_valid_email tt 0 demo_bad_body empty_db
                  demo_bad_body_non_empty)).
  exists (fields_Str "password" true [Length 6]). split.
  - unfold UserSchema. do 2 (apply elem_of_cons; right). constructor.
  - reflexivity.
Defined.

(** C10 at the empty object. *)
Lemma falsy_body_is_no_input_witness :
  truthy (JObject ∅) = false /\
  route_create_user unit demo_hashpw demo_valid_email tt
    (json_body (JObject ∅)) demo_db
  = (demo_db, Return (JObject {[ "error" := JStr "No input data provided" ]},
                      BAD_REQUEST)).
Proof.
  assert (Hfalsy : truthy (JObject ∅) = false) by reflexivity.
  split; [exact Hfalsy|].
  apply (falsy_body_is_no_input unit demo_hashpw
           demo_check_password_hash demo_valid_email tt 0 (JObject ∅) demo_db
           Hfalsy).
Defined.

(** C10 as stated fails.  The empty object is answered with No input data
    provided; a request without a JSON body is not answered as it is: with
    no JSON Content-Type [request.get_json()] raises [UnsupportedMediaType],
    with a body that does not parse [BadRequest], and the three handlers
    let the exception escape. *)
Lemma request_without_body_is_not_no_input :
  (forall (salt : Type) (hashpw : string -> salt -> string)
          (valid_email : string -> bool) (s : salt) (db : DB),
      route_create_user salt hashpw valid_email s (json_body (JObject ∅)) db
      = (db, Return (JObject {[ "error" := JStr "No input data provided" ]},
                     BAD_REQUEST)) /\
      route_create_user salt hashpw valid_email s not_json db
      = (db, Raise UnsupportedMediaType) /\
      route_create_user salt hashpw valid_email s malformed_json db
      = (db, Raise BadRequest)) /\
  (forall (valid_email : string -> bool) (user_id : Z) (db : DB),
      route_update_user valid_email user_id not_json db
      = (db, Raise UnsupportedMediaType) /\
      route_update_user valid_email user_id malformed_json db
      = (db, Raise BadRequest)) /\
  (forall (check_password_hash : string -> string -> bool)
          (valid_email : string -> bool) (db : DB),
      route_login check_password_hash valid_email not_json db
      = (db, Raise UnsupportedMediaType) /\
      route_login check_password_hash valid_email malformed_json db
      = (db, Raise BadRequest)) /\
  (forall (e : exn) (answer : response), Raise e <> Return answer).
Proof.
  split; [|split; [|split]].
  - intros. repeat split.
  - intros. repeat split.
  - intros. repeat split.
  - intros e answer E. discriminate E.
Qed.

(** C7 as stated fails: the body below has the empty string as password,
    and with any email check that accepts its email and any password check
    [POST /login] on the empty table passes validation and answers 401 from
    the store, not 400. *)
Lemma login_empty_password_reaches_store :
  login_body "ann@x.com" ""
  = JObject {[ "email" := JStr "ann@x.com"; "password" := JStr "" ]} /\
  (forall (check_password_hash : string -> string -> bool)
          (valid_email : string -> bool),
      valid_email "ann@x.com" = true ->
      load valid_email LoginSchema (login_body "ann@x.com" "")
      = Return {[ "email" := "ann@x.com"; "password" := "" ]} /\
      route_login check_password_hash valid_email
        (json_body (login_body "ann@x.com" "")) empty_db
      = (empty_db,
         Return (JObject {[ "status" := JStr "failed";
                            "error" := JStr "Invalid credentials" ]},
                 UNAUTHORIZED))) /\
  status_code UNAUTHORIZED = 401.
Proof.
  split; [reflexivity|]. split; [|reflexivity].
  intros check_password_hash valid_email Hemail. split.
  - by apply load_login_body.
  - by rewrite route_login_valid.
Qed.

(** C8 as stated fails: in the empty object every field of [UserSchema] is
    offending, and [POST /users] answers it with No input data provided,
    which is not a validation error and lists no field. *)
Lemma create_empty_object_lists_no_field :
  (forall (valid_email : string -> bool) (f : field),
      f ∈ UserSchema -> offending valid_email f ∅) /\
  (forall (salt : Type) (hashpw : string -> salt -> string)
          (valid_email : string -> bool) (s : salt) (db : DB),
      route_create_user salt hashpw valid_email s (json_body (JObject ∅)) db
      = (db, Return (JObject {[ "error" := JStr "No input data provided" ]},
                     BAD_REQUEST))) /\
  (forall messages,
      (JObject {[ "error" := JStr "No input data provided" ]}, BAD_REQUEST)
      <> validation_error_response messages).
Proof.
  split; [|split].
  - intros valid_email f Hf. unfold UserSchema in Hf.
    repeat (apply elem_of_cons in Hf as [->|Hf]); try reflexivity.
    inversion Hf.
  - reflexivity.
  - intros messages E. inversion E.
Qed.

(** ** The further properties at concrete inputs *)




(** X1 from the empty table, over a create and a delete. *)
Lemma store_keeps_invariant_witness :
  wf_db empty_db /\
  wf_db (fst (run unit demo_hashpw
               [Create unit tt "Ann" "ann@x.com" "abcdef"; Delete unit 1]
               empty_db)).
Proof.
  destruct (store_keeps_invariant unit demo_hashpw tt tt tt
              [Create unit tt "Ann" "ann@x.com" "abcdef"; Delete unit 1]
              empty_db empty_db_wf) as (_ & Hrun & _).
  split; [exact empty_db_wf|exact Hrun].
Defined.

(** X3 at the sample users: John deleted at the store. *)
Lemma delete_user_removes_that_user_witness :
  fits_int64 1 = true /\
  exists db',
    delete_user 1 demo_db = (db', Return true) /\
    get_user_by_id 1 db' = (db', Return None) /\
    delete_user 1 db' = (db', Return false).
Proof.
  destruct (delete_user_removes_that_user 1 demo_db eq_refl)
    as ((deleted & Hdelete & Hiff) & Hget & _ & _ & Hagain).
  split; [reflexivity|]. eexists. split; [|split; [exact Hget|exact Hagain]].
  rewrite Hdelete. do 2 f_equal. apply Hiff.
  exists demo_john. split; [exact demo_john_in_db|reflexivity].
Defined.




Definition demo_body_with_id : gmap string json :=
  {[ "id" := JInt 7; "name" := JStr "Ann"; "email" := JStr "ann@x.com";
     "password" := JStr "abcdef" ]}.

(** X8 at a create body that also carries an id. *)
Lemma undeclared_key_is_rejected_witness :
  is_Some (demo_body_with_id !! "id") /\
  exists messages,
    route_create_user unit demo_hashpw demo_valid_email tt
      (json_body (JObject demo_body_with_id)) empty_db
    = (empty_db, Return (validation_error_response messages)) /\
    messages !! "id" = Some ["Unknown field."].
Proof.
  assert (Hkey : is_Some (demo_body_with_id !! "id")) by (by eexists).
  destruct (undeclared_key_is_rejected unit demo_hashpw
              demo_check_password_hash demo_valid_email tt 0
              demo_body_with_id "id" empty_db Hkey) as (Hcreate & _ & _ & Hid).
  split; [exact Hkey|]. exact (Hcreate Hid).
Defined.


(** X12 at the sample users: John deleted. *)
Lemma delete_user_then_not_found_witness :
  demo_john ∈ rows demo_db /\
  exists db',
    route_delete_user 1 demo_db
    = (db', Return (JObject {[ "message" := JStr "User deleted successfully" ]},
                    OK)) /\
    route_delete_user 1 db'
    = (db', Return (error_body "User not found", NOT_FOUND)).
Proof.
  destruct (delete_user_then_not_found demo_db demo_john demo_john_in_db eq_refl)
    as (db' & Hfirst & _ & Hsecond & _).
  split; [exact demo_john_in_db|]. exists db'. split; assumption.
Defined.

(** X13 at the sample users: John. *)
Lemma get_user_found_or_404_witness :
  wf_db demo_db /\ demo_john ∈ rows demo_db /\
  route_get_user 1 demo_db
  = (demo_db, Return (JObject {[ "id" := JInt 1; "name" := JStr "John Doe";
                                 "email" := JStr "john@example.com" ]}, OK)) /\
  route_get_user demo_big_id demo_db = (demo_db, Raise OverflowError).
Proof.
  destruct (get_user_found_or_404 demo_db demo_john demo_db_wf demo_john_in_db
              eq_refl)
    as (Hfound & _ & _ & Hbeyond).
  split; [exact demo_db_wf|]. split; [exact demo_john_in_db|].
  split; [exact Hfound|]. by apply Hbeyond.
Defined.

(** X15 at the sample users: the search for oh. *)
Lemma search_users_finds_substrings_witness :
  wildcard_free "oh" = true /\ nul_free "oh" = true /\
  search_users "oh" demo_db =
    (demo_db,
     Return (map dict_id_name_email
               (List.filter (fun r => contains_nocase "oh" (c_str (row_name r)))
                  (rows demo_db)))).
Proof.
  assert (Hshort : utf8_len ("%" +:+ "oh" +:+ "%")
                   <= SQLITE_MAX_LIKE_PATTERN_LENGTH)
    by (apply Z.leb_le; reflexivity).
  destruct (search_users_finds_substrings "oh" demo_db eq_refl eq_refl Hshort)
    as (Hsearch & _).
  split; [reflexivity|]. split; [reflexivity|]. exact Hsearch.
Defined.

(** A search string of 49999 bytes: with the two [%] the pattern has 50001. *)
Definition demo_long_name : string :=
  Nat.iter (N.to_nat 49999) (String "a") "".

(** X16 at the sample users: the search for oh, and a search string that
    LIKE refuses. *)
Lemma search_route_lists_a_sublist_witness :
  route_search_users (Some "oh") demo_db
  = (demo_db,
     Return (JList (JObject <$>
                      [ {[ "id" := JInt 1; "name" := JStr "John Doe";
                           "email" := JStr "john@example.com" ]};
                        {[ "id" := JInt 3; "name" := JStr "Bob Johnson";
                           "email" := JStr "bob@example.com" ]} ]), OK)) /\
  utf8_len demo_long_name = 49999 /\
  route_search_users (Some demo_long_name) demo_db
  = (demo_db, Return (error_body "Database error", INTERNAL_SERVER_ERROR)).
Proof.
  assert (Hlen : utf8_len demo_long_name = 49999) by (vm_compute; reflexivity).
  assert (Hlong : SQLITE_MAX_LIKE_PATTERN_LENGTH
                  < utf8_len ("%" +:+ demo_long_name +:+ "%")).
  { rewrite utf8_len_pattern, Hlen. reflexivity. }
  assert (Hname : demo_long_name <> "").
  { intros E. rewrite E in Hlen. discriminate Hlen. }
  assert (Hrows : rows demo_db <> []) by discriminate.
  destruct (search_route_lists_a_sublist demo_long_name demo_db)
    as (_ & _ & _ & Hrefused).
  destruct (Hrefused Hname Hlong Hrows) as [_ Hroute].
  split; [reflexivity|]. split; [exact Hlen|exact Hroute].
Defined.
